(** * mailing.py: the campaign send workflow

    A shallow embedding of [src/mailing.py]: the text operations the
    renderer uses ([str.split], [str.strip], [str.replace]), the contact
    rows as [csv.DictReader] produces them, the send loop of
    [enviar_correos] with its two exception handlers, and the end-of-run
    rewrite through [csv.DictWriter].

    Conventions.
    - A Python [str] is a list of code points ([N]).
    - A Python [dict] is a [gmap]; no modelled operation observes the
      insertion order of a dict except the iteration over [images], which
      is kept as a list.
    - The lexical layer of the [csv] module (delimiters, quoting) is not
      modelled: a contact-list file is the list of records that
      [csv.reader] yields from it and that [csv.writer] is given.
    - The mail server is an oracle: what each call on the session returns
      or raises is an input of the run.
    - What the run reads from the campaign folder (the contact list, the
      templates, the image files) is given with the campaign; of the
      errors of these reads only a missing template and a missing image
      file are modelled, as the source handles only these. *)

From stdpp Require Import gmap list.
From Stdlib Require Import String Ascii NArith Lia.

Local Open Scope N_scope.

(** ** Text *)

Definition char := N.
Abbreviation str := (list N).

(** An ASCII literal of the source, as code points. *)
Definition lit (s : String.string) : str :=
  map N_of_ascii (list_ascii_of_string s).

(** [str.isspace] for one code point: the characters [str.split()] and
    [str.strip()] treat as whitespace. *)
Definition isspace (c : char) : bool :=
  ((9 <=? c) && (c <=? 13)) || ((28 <=? c) && (c <=? 32))
  || (c =? 133) || (c =? 160) || (c =? 5760)
  || ((8192 <=? c) && (c <=? 8202))
  || (c =? 8232) || (c =? 8233) || (c =? 8239) || (c =? 8287)
  || (c =? 12288).

Fixpoint lstrip (s : str) : str :=
  match s with
  | c :: s' => if isspace c then lstrip s' else s
  | [] => []
  end.

(** [s.strip()] *)
Definition strip (s : str) : str := rev (lstrip (rev (lstrip s))).

(** [s.split()]: the maximal runs of non-whitespace characters, in order.
    [cur] is the run being read, reversed. *)
Fixpoint split_from (cur s : str) : list str :=
  match s with
  | [] => match cur with [] => [] | _ => [rev cur] end
  | c :: s' =>
      if isspace c
      then match cur with
           | [] => split_from [] s'
           | _ => rev cur :: split_from [] s'
           end
      else split_from (c :: cur) s'
  end.

Definition split (s : str) : list str := split_from [] s.

Fixpoint starts_with (p s : str) : bool :=
  match p, s with
  | [], _ => true
  | a :: p', b :: s' => (a =? b) && starts_with p' s'
  | _ :: _, [] => false
  end.

(** [s.replace(old, new)] for a non-empty [old]: scan left to right; at a
    position where [old] starts, emit [new] and step over [old]. [skip]
    counts the characters of a matched [old] still to step over. *)
Fixpoint replace_from (old new : str) (skip : nat) (s : str) : str :=
  match s with
  | [] => []
  | c :: s' =>
      match skip with
      | S k => replace_from old new k s'
      | O => if starts_with old s
             then new ++ replace_from old new (pred (List.length old)) s'
             else c :: replace_from old new O s'
      end
  end.

(** [s.replace(old, new)]; with an empty [old] Python puts [new] before
    every character and at the end. *)
Definition replace (s old new : str) : str :=
  match old with
  | [] => new ++ flat_map (fun c => c :: new) s
  | _ => replace_from old new O s
  end.

(** ** Exceptions

    The exceptions the run can meet; all derive from [Exception]. *)

Inductive exn :=
| IndexError
| AttributeError
| ValueError
| SMTPAuthenticationError
| gaierror
| ConnectionRefusedError
| SMTPServerDisconnected
| SMTPException
| OSError.

Inductive res (A : Type) :=
| Ok (a : A)
| Raise (e : exn).
Arguments Ok {A} a.
Arguments Raise {A} e.

#[global] Instance res_ret : MRet res := fun A a => Ok a.
#[global] Instance res_bind : MBind res := fun A B f m =>
  match m with Ok a => f a | Raise e => Raise e end.

(** ** Contact rows

    The dict [csv.DictReader] builds from one record: a value per field
    name, [None] where the record is shorter than the header, and under
    the key [None] (the default [restkey]) the surplus cells of a record
    longer than the header. *)

Record row := Row {
  fields : gmap str (option str);
  rest : option (list str)
}.

Abbreviation record := (list str).
Abbreviation csvfile := (list (list str)).

(** [dict(zip(fieldnames, record))]: a later duplicate of a field name
    overwrites the value of an earlier one. *)
Fixpoint zip_dict (hdr : list str) (r : record) (d : gmap str (option str))
  : gmap str (option str) :=
  match hdr, r with
  | k :: hdr', v :: r' => zip_dict hdr' r' (<[k := Some v]> d)
  | _, _ => d
  end.

(** [DictReader.__next__] on a non-blank record. *)
Definition read_row (hdr : list str) (r : record) : row :=
  let d := zip_dict hdr r ∅ in
  let lf := List.length hdr in
  let lr := List.length r in
  if (lf <? lr)%nat then Row d (Some (drop lf r))
  else Row (foldl (fun d k => <[k := None]> d) d (drop lr hdr)) None.

Definition is_blank (r : record) : bool :=
  match r with [] => true | _ => false end.

(** [list(csv.DictReader(f))]: the first record is the header, blank
    records after it are passed over. *)
Definition dict_reader (f : csvfile) : list row :=
  match f with
  | [] => []
  | hdr :: recs => map (read_row hdr) (filter (fun r => negb (is_blank r)) recs)
  end.

Definition k_nombre := lit "nombre".
Definition k_email := lit "email".
Definition k_device := lit "device".
Definition k_enviado := lit "enviado".
Definition k_language := lit "language".

(** [fieldnames] of the rewrite, line 318. *)
Definition fieldnames : list str :=
  [k_nombre; k_email; k_device; k_enviado; k_language].

(** How [csv.writer] prints a cell: [None] as the empty string. *)
Definition cell (v : option str) : str := default [] v.

(** [rowdict.keys() - self.fieldnames] is non-empty. *)
Definition wrong_fields (d : row) : bool :=
  match rest d with
  | Some _ => true
  | None => negb (bool_decide (dom (fields d) ⊆ list_to_set fieldnames))
  end.

(** [DictWriter._dict_to_list], with the defaults [extrasaction='raise']
    and [restval='']. *)
Definition dict_to_list (d : row) : res record :=
  if wrong_fields d then Raise ValueError
  else Ok (map (fun k => cell (default (Some []) (fields d !! k))) fieldnames).

(** [writer.writerows(contactos)]: the rows are converted and written one
    by one, so the rows before a failing one are already in the file. *)
Fixpoint writerows (ds : list row) : list record * option exn :=
  match ds with
  | [] => ([], None)
  | d :: ds' =>
      match dict_to_list d with
      | Raise e => ([], Some e)
      | Ok r => let '(w, e) := writerows ds' in (r :: w, e)
      end
  end.

(** [contacto.get(k, dflt)] followed by a [str] method: a [None] value has
    no such method. *)
Definition get_str (d : row) (k dflt : str) : res str :=
  match default (Some dflt) (fields d !! k) with
  | Some s => Ok s
  | None => Raise AttributeError
  end.

(** ** Messages *)

Record image := Image {
  filename : str;
  data : option str   (* [None]: the file is not on disk *)
}.

Record message := Message {
  m_subject : str;
  m_from : str;
  m_to : str;
  m_html : str;
  m_inline : list (str * str)   (* Content-ID, bytes *)
}.

(** [filename.replace('.', '_')] *)
Definition content_id (fn : str) : str := replace fn (lit ".") (lit "_").

Definition dquote : char := 34.

(** [f'src="images/{filename}"'] *)
Definition src_images (fn : str) : str :=
  lit "src=" ++ dquote :: lit "images/" ++ fn ++ [dquote].

(** [f'src="cid:{cid}"'] *)
Definition src_cid (fn : str) : str :=
  lit "src=" ++ dquote :: lit "cid:" ++ content_id fn ++ [dquote].

(** The loop of lines 159-165: one [replace] per image, in the order of
    [images.keys()]. *)
Definition embed_images (html : str) (images : list image) : str :=
  foldl (fun h img => replace h (src_images (filename img))
                                (src_cid (filename img)))
        html images.

(** [nombre.split()[0]] *)
Definition first_token (nombre : str) : res str :=
  match split nombre with
  | t :: _ => Ok t
  | [] => Raise IndexError
  end.

(** Lines 155-165: the HTML body. A template that is [None] has no
    [replace]. *)
Definition render (nombre : str) (html_template : option str)
    (images : list image) : res str :=
  first_name ← first_token nombre;
  match html_template with
  | None => Raise AttributeError
  | Some t => Ok (embed_images (replace t (lit "$name") first_name) images)
  end.

(** Lines 172-181: an image whose file is missing is reported and left
    out. *)
Definition inline_images (images : list image) : list (str * str) :=
  omap (fun img => (fun b => (content_id (filename img), b)) <$> data img)
       images.

(** [create_html_email]; [From] and [To] are set by the caller. *)
Definition create_html_email (nombre : str) (html_template : option str)
    (images : list image) (subject : str) : res message :=
  html ← render nombre html_template images;
  Ok (Message subject [] [] html (inline_images images)).

(** ** The campaign and the mail session *)

Record campaign := Campaign {
  csv_file : option csvfile;          (* [None]: no .csv in the folder *)
  template_es : option str;           (* [None]: template file missing *)
  template_en : option str;
  images : list image;                (* in the order of [images.keys()] *)
  subjects : option (gmap str str)    (* the [subjects] entry of config.json *)
}.

(** What the session does when called: [connect] stands for lines 259-262
    (constructor, [starttls], [login]) and holds the first exception they
    raise; [sendmail k] is the outcome of the [k]-th call of
    [server.sendmail], counted from 0; [quit] that of [server.quit]. *)
Record smtp := Smtp {
  connect : option exn;
  sendmail : nat → option exn;
  quit : option exn
}.

(** What became of one contact in the send loop. *)
Inductive outcome :=
| Skipped                              (* line 280 *)
| AlreadySent                          (* line 283 *)
| BuildFailed (e : exn)                (* [create_html_email] raised *)
| SendFailed (m : message) (e : exn)   (* [sendmail] raised *)
| Sent (m : message).

(** The contact entered the [try] of line 298. *)
Definition attempted (o : outcome) : bool :=
  match o with
  | Skipped | AlreadySent => false
  | _ => true
  end.

(** [server.sendmail] was called for the contact. *)
Definition called (o : outcome) : bool :=
  match o with
  | SendFailed _ _ | Sent _ => true
  | _ => false
  end.

Definition succeeded (o : outcome) : bool :=
  match o with Sent _ => true | _ => false end.

(** How [enviar_correos] ends. *)
Inductive status :=
| NoCampaign                 (* line 200 *)
| NoCsv                      (* line 208 *)
| NoTemplates                (* line 216 *)
| EmptyCsv                   (* line 243 *)
| AllSent                    (* line 254 *)
| Uncaught (e : exn)         (* raised outside the [try], line 249 *)
| AuthError                  (* line 325 *)
| DnsError                   (* line 327 *)
| Refused                    (* line 329 *)
| Unexpected (e : exn)       (* line 331 *)
| Updated (enviados pendientes : nat).   (* line 322 *)

Record result := Result {
  r_status : status;
  r_connected : bool;                    (* line 259 was reached *)
  r_rows : list (row * outcome);         (* contacts the loop got through,
                                            as they are in memory after it *)
  r_written : option csvfile             (* [None]: the contact list was never
                                            opened for writing; otherwise
                                            its content after the run *)
}.

(** The [except] clauses of lines 324-331. *)
Definition handler (e : exn) : status :=
  match e with
  | SMTPAuthenticationError => AuthError
  | gaierror => DnsError
  | ConnectionRefusedError => Refused
  | _ => Unexpected e
  end.

Definition s_si := lit "si".
Definition s_no := lit "no".
Definition s_es := lit "es".
Definition s_en := lit "en".
Definition s_android := lit "android".
Definition s_spotter := lit "Spotter AI".
Definition s_from := lit "Spotter AI <info@spotter-ai.app>".

(** [str.lower] on the ASCII letters, for concrete runs. *)
Definition lower_ascii (s : str) : str :=
  map (fun c => if (65 <=? c) && (c <=? 90) then c + 32 else c) s.

Section Run.

(** [str.lower] is the case mapping of the runtime; the run is modelled
    for any such mapping. *)
Variable lower : str → str.

Definition norm (s : str) : str := strip (lower s).

(** Line 249. *)
Definition is_pending (c : row) : res bool :=
  enviado ← get_str c k_enviado s_no;
  Ok (negb (bool_decide (norm enviado = s_si))).

Fixpoint count_pending (cs : list row) : res nat :=
  match cs with
  | [] => Ok O
  | c :: cs' =>
      p ← is_pending c;
      n ← count_pending cs';
      Ok (if (p : bool) then S n else n)
  end.

Variable cfg : campaign.
Variable server : smtp.

(** [templates.get(language)] for a validated language. *)
Definition templates_get (language : str) : option str :=
  if bool_decide (language = s_es) then template_es cfg else template_en cfg.

(** [not html_template] *)
Definition falsy (t : option str) : bool :=
  match t with None | Some [] => true | _ => false end.

(** Line 293, over the [subjects] of lines 229-232. *)
Definition subject_for (language : str) : str :=
  let subj := default {[ s_es := s_spotter; s_en := s_spotter ]} (subjects cfg) in
  default (default s_spotter (subj !! s_es)) (subj !! language).

(** One pass of the loop body, lines 268-311; [k] is the number of
    [sendmail] calls made so far. [Raise] is an exception that leaves the
    loop. *)
Definition process (c : row) (k : nat) : res outcome :=
  nombre0 ← get_str c k_nombre [];
  nombre1 ← first_token nombre0;
  let nombre := strip nombre1 in
  email0 ← get_str c k_email [];
  let email := norm email0 in
  enviado0 ← get_str c k_enviado s_no;
  let enviado := norm enviado0 in
  device0 ← get_str c k_device s_no;
  let device := norm device0 in
  language0 ← get_str c k_language s_es;
  let language :=
    if bool_decide (norm language0 = s_es) || bool_decide (norm language0 = s_en)
    then norm language0 else s_es in
  if bool_decide (nombre = []) || bool_decide (email = [])
     || bool_decide (device = s_android)
  then Ok Skipped
  else if bool_decide (enviado = s_si) then Ok AlreadySent
  else
    let chosen : option str * str :=
      if falsy (templates_get language) then (template_es cfg, s_es)
      else (templates_get language, language) in
    let subject := subject_for chosen.2 in
    match create_html_email nombre chosen.1 (images cfg) subject with
    | Raise e => Ok (BuildFailed e)
    | Ok msg =>
        let msg := Message (m_subject msg) s_from email (m_html msg) (m_inline msg) in
        match sendmail server k with
        | Some e => Ok (SendFailed msg e)
        | None => Ok (Sent msg)
        end
    end.

(** [contacto['enviado'] = 'si'], line 306. *)
Definition mark_sent (c : row) : row :=
  Row (<[k_enviado := Some s_si]> (fields c)) (rest c).

(** The loop of lines 267-311: the contacts it got through, each with its
    outcome and as it is in memory afterwards, and the exception that
    ended it, if any. *)
Fixpoint send_loop (cs : list row) (k : nat)
  : list (row * outcome) * option exn :=
  match cs with
  | [] => ([], None)
  | c :: cs' =>
      match process c k with
      | Raise e => ([], Some e)
      | Ok o =>
          let c' := if succeeded o then mark_sent c else c in
          let k' := if called o then S k else k in
          let '(rows, e) := send_loop cs' k' in
          ((c', o) :: rows, e)
      end
  end.

Definition enviados (rows : list (row * outcome)) : nat :=
  List.length (filter (fun ro => succeeded ro.2 = true) rows).

(** [contactos] as line 240 loads them. *)
Definition contactos : list row :=
  match csv_file cfg with
  | Some f => dict_reader f
  | None => []
  end.

(** Lines 256-331, once [pendientes] is known to be positive. *)
Definition session (pendientes : nat) : result :=
  match connect server with
  | Some e => Result (handler e) true [] None
  | None =>
      let '(rows, e) := send_loop contactos O in
      match e with
      | Some e => Result (handler e) true rows None
      | None =>
          match quit server with
          | Some e => Result (handler e) true rows None
          | None =>
              let '(written, e) := writerows (map fst rows) in
              match e with
              | Some e =>
                  Result (handler e) true rows (Some (fieldnames :: written))
              | None =>
                  Result (Updated (enviados rows) pendientes) true rows
                         (Some (fieldnames :: written))
              end
          end
      end
  end.

End Run.

(** A return before the session is opened. *)
Definition stop (s : status) : result := Result s false [] None.

(** [enviar_correos]; [camp] is what [load_campaign_config] returned. *)
Definition enviar_correos (lower : str → str) (camp : option campaign)
    (server : smtp) : result :=
  match camp with
  | None => stop NoCampaign
  | Some cfg =>
      match csv_file cfg with
      | None => stop NoCsv
      | Some _ =>
          if falsy (template_es cfg) && falsy (template_en cfg)
          then stop NoTemplates
          else
            match contactos cfg with
            | [] => stop EmptyCsv
            | _ =>
                match count_pending lower (contactos cfg) with
                | Raise e => stop (Uncaught e)
                | Ok O => stop AllSent
                | Ok pendientes => session lower cfg server pendientes
                end
            end
      end
  end.

(** The contact list after the run. *)
Definition csv_after (cfg : campaign) (r : result) : option csvfile :=
  match r_written r with
  | Some f => Some f
  | None => csv_file cfg
  end.

(** ** Notions used in the statements *)

(** A word: non-empty and free of whitespace, as the items of [split]. *)
Definition word (t : str) : Prop :=
  t ≠ [] ∧ Forall (λ c, isspace c = false) t.

(** The field [k] of the contact, read with default [dflt], is a string
    that lowercased and trimmed equals [v]. *)
Definition field_is (lower : str → str) (c : row) (k dflt v : str) : Prop :=
  ∃ s, get_str c k dflt = Ok s ∧ norm lower s = v.

(** The [nombre] of the contact is empty or all whitespace. *)
Definition blank_name (c : row) : Prop :=
  ∃ s, get_str c k_nombre [] = Ok s ∧ Forall (λ ch, isspace ch = true) s.

(** The [enviado] value of a contact as the rewrite prints it: a missing
    key as [restval], the empty string. *)
Definition enviado_cell (c : row) : str :=
  cell (default (Some []) (fields c !! k_enviado)).

(** ** Concrete runs *)

Definition srv_ok : smtp := Smtp None (λ _, None) None.

(** Authentication is refused at [login]. *)
Definition srv_auth : smtp := Smtp (Some SMTPAuthenticationError) (λ _, None) None.

(** The connection is lost at the first [sendmail]: that call and every
    later call on the session, [quit] included, raise
    [SMTPServerDisconnected]. *)
Definition srv_lost : smtp :=
  Smtp None (λ _, Some SMTPServerDisconnected) (Some SMTPServerDisconnected).

Definition rec_ana : record :=
  [lit "Ana Ruiz"; lit "a@x.com"; lit "ios"; lit "no"; lit "es"].
Definition rec_bob : record :=
  [lit "Bob"; lit "b@x.com"; lit "android"; lit "no"; lit "en"].
Definition rec_carla : record :=
  [lit "Carla"; lit "c@x.com"; lit "ios"; lit " Si "; lit "es"].
Definition rec_dan : record :=
  [lit "Dan Gil"; lit "d@x.com"; lit "ios"; lit "no"; lit "en"].
Definition rec_blank : record :=
  [lit "  "; lit "e@x.com"; lit "ios"; lit "no"; lit "es"].

Definition tpl_es : str := lit "<p>Hola $name</p>".
Definition tpl_en : str := lit "<p>Hello $name</p>".

Definition campaign_of (f : csvfile) : campaign :=
  Campaign (Some f) (Some tpl_es) (Some tpl_en) [] None.

(** Ana is pending, Bob uses android, Carla was sent to before. *)
Definition cfg_abc : campaign :=
  campaign_of [fieldnames; rec_ana; rec_bob; rec_carla].

(** Two pending contacts. *)
Definition cfg_two : campaign := campaign_of [fieldnames; rec_ana; rec_dan].

(** A pending contact, then one with a blank name, then another pending
    one. *)
Definition cfg_blank : campaign :=
  campaign_of [fieldnames; rec_ana; rec_blank; rec_dan].

(** Every contact was sent to before. *)
Definition cfg_done : campaign := campaign_of [fieldnames; rec_carla].

(** A contact list with a sixth column. *)
Definition cfg_phone : campaign :=
  campaign_of [fieldnames ++ [lit "telefono"];
               rec_ana ++ [lit "600"]; rec_dan ++ [lit "601"]].

(** The contact at position [i], loaded as [c], is passed over by the
    run: the loop makes no send attempt for it and leaves it as loaded;
    whatever record the rewrite writes for it is the record of [c] as
    loaded, which in the documented column layout is the very record that
    was read; and after a completed run that record is in the file. *)
Definition passed_over (lower : str → str) (cfg : campaign) (server : smtp)
    (i : nat) (c : row) : Prop :=
  (∀ c' o, r_rows (enviar_correos lower (Some cfg) server) !! i = Some (c', o) →
           attempted o = false ∧ c' = c)
  ∧ (∀ recs rec,
       r_written (enviar_correos lower (Some cfg) server) = Some (fieldnames :: recs) →
       recs !! i = Some rec →
       dict_to_list c = Ok rec
       ∧ ∀ r0 : record, List.length r0 = 5%nat → c = read_row fieldnames r0 → rec = r0)
  ∧ (∀ n p,
       r_status (enviar_correos lower (Some cfg) server) = Updated n p →
       ∃ recs rec,
         r_written (enviar_correos lower (Some cfg) server) = Some (fieldnames :: recs)
         ∧ recs !! i = Some rec).


(** ** Replacement, declaratively *)

(** [out] is [s] with the occurrences of [old] replaced by [new], found
    from the left, each search resuming after the occurrence before; the
    text between occurrences is kept. *)
Inductive replaced (old new : str) : str → str → Prop :=
| replaced_none s :
    (∀ pre post, s ≠ pre ++ old ++ post) →
    replaced old new s s
| replaced_next pre post out :
    (∀ pre1 post1, pre ++ old ++ post = pre1 ++ old ++ post1 →
                   (List.length pre ≤ List.length pre1)%nat) →
    replaced old new post out →
    replaced old new (pre ++ old ++ post) (pre ++ new ++ out).

(** The image references rewritten file name by file name, each pass over
    the HTML the pass before left. *)
Inductive rewritten : list str → str → str → Prop :=
| rewritten_nil html : rewritten [] html html
| rewritten_cons fn fns html html1 out :
    replaced (src_images fn) (src_cid fn) html html1 →
    rewritten fns html1 out →
    rewritten (fn :: fns) html out.

(** The positions of [s] at which the reference to a known image starts. *)
Definition ref_positions (known : list str) (s : str) : list nat :=
  filter (λ n, existsb (λ fn, starts_with (src_images fn) (drop n s)) known = true)
         (seq 0 (List.length s)).

(** Two image files of one campaign; the name of the second holds the
    reference the first is rewritten to. *)
Definition img_a : str := lit "a.png".
Definition img_b : str :=
  lit "src=" ++ dquote :: lit "cid:a_png" ++ dquote :: lit ".png".
Definition imgs_ab : list image := [Image img_a None; Image img_b None].

Definition html_pre : str := lit "src=" ++ dquote :: lit "images/".
Definition html_post : str := lit ".png" ++ [dquote].
Definition html_ab : str := html_pre ++ src_images img_a ++ html_post.

(** ** Further notions *)

(** The campaign with its contact list replaced by [f], as a later run
    finds it. *)
Definition with_csv (cfg : campaign) (f : csvfile) : campaign :=
  Campaign (Some f) (template_es cfg) (template_en cfg) (images cfg)
           (subjects cfg).

(** The contact with [contacto['language']] set to [l]. *)
Definition set_language (c : row) (l : str) : row :=
  Row (<[k_language := Some l]> (fields c)) (rest c).

(** A record shorter than the header: it has no [enviado] cell. *)
Definition rec_short : record := [lit "Eva"; lit "e@x.com"].

Definition cfg_short : campaign :=
  campaign_of [fieldnames; rec_ana; rec_short].

(** The language of lines 272-276 for the value read from the contact. *)
Definition valid_language (lower : str → str) (language0 : str) : str :=
  if bool_decide (norm lower language0 = s_es)
     || bool_decide (norm lower language0 = s_en)
  then norm lower language0 else s_es.

(** The template and the language of lines 286-290. *)
Definition choose_template (cfg : campaign) (language : str) : option str * str :=
  if falsy (templates_get cfg language) then (template_es cfg, s_es)
  else (templates_get cfg language, language).

(** The message of lines 300-302 for first name [t], address [email],
    language [language] and template [tpl]. *)
Definition message_for (cfg : campaign) (t email language tpl : str) : message :=
  Message (subject_for cfg language) s_from email
          (embed_images (replace tpl (lit "$name") t) (images cfg))
          (inline_images (images cfg)).

(** A campaign whose Spanish template file is missing. *)
Definition cfg_no_es : campaign :=
  Campaign (Some [fieldnames; rec_ana; rec_dan]) None (Some tpl_en) [] None.

(** A contact without an address. *)
Definition rec_noemail : record :=
  [lit "Flor"; lit "  "; lit "ios"; lit "no"; lit "es"].


(** A contact list whose header has no [nombre] column. *)
Definition cfg_no_nombre : campaign :=
  campaign_of [[lit "name"; k_email; k_device; k_enviado; k_language];
               rec_ana; rec_dan].

(** ** The campaign store

    The campaigns directory as the loaders see it. A campaign folder is
    given by what the source asks of it: what [json.load] makes of its
    [config.json], its listing, the text of its template files, the
    records of its contact lists and the listing of its [images] folder
    with the bytes of each file. [json.load] is taken to give an object
    with a string [name] and string-to-string [templates] and [subjects],
    or to raise. *)

Record config_json := ConfigJson {
  cj_name : option str;
  cj_templates : option (gmap str str);
  cj_subjects : option (gmap str str)
}.

Record folder := Folder {
  config_file : option (res config_json);   (* [None]: no config.json *)
  listing : list str;                       (* [os.listdir(campaign_path)] *)
  text_files : gmap str str;                (* template files by name *)
  csv_records : str → csvfile;              (* a contact list by name *)
  images_dir : option (list (str * option str))
    (* [None]: no images folder; else its listing and the bytes of each
       file, [None] for one that cannot be found when opened *)
}.

Inductive entry :=
| Plain               (* not a directory *)
| Sub (f : folder).

(** [s.endswith(suffix)] *)
Definition ends_with (suffix s : str) : bool :=
  starts_with (rev suffix) (rev s).

(** [DEFAULT_CAMPAIGN] *)
Definition DEFAULT_CAMPAIGN : str := lit "beta_invitation".

(** The entry of the campaigns directory named [id], for [os.path.join]
    of the directory and a plain name. *)
Fixpoint lookup_entry (id : str) (es : list (str * entry)) : option entry :=
  match es with
  | [] => None
  | (n, e) :: es' => if bool_decide (n = id) then Some e else lookup_entry id es'
  end.

(** [list_campaigns]: identifier and display name of each campaign, in
    listing order; [root] is the listing of [CAMPAIGNS_DIR], [None] when
    it does not exist. *)
Fixpoint list_entries (es : list (str * entry)) : res (list (str * str)) :=
  match es with
  | [] => Ok []
  | (folder, e) :: es' =>
      match e with
      | Sub f =>
          match config_file f with
          | Some loaded =>
              config ← loaded;
              rest ← list_entries es';
              Ok ((folder, default folder (cj_name config)) :: rest)
          | None => list_entries es'
          end
      | Plain => list_entries es'
      end
  end.

Definition list_campaigns (root : option (list (str * entry)))
  : res (list (str * str)) :=
  match root with
  | Some es => list_entries es
  | None => Ok []
  end.

(** [load_html_template] *)
Definition load_html_template (f : folder) (config : config_json)
    (language : str) : option str :=
  let template_name :=
    default (lit "template_es.html") (default ∅ (cj_templates config) !! language) in
  text_files f !! template_name.

(** [get_images_to_embed], the bytes of each image along. *)
Definition get_images_to_embed (lower : str → str) (f : folder) : list image :=
  match images_dir f with
  | Some files =>
      omap (λ fb : str * option str,
              if existsb (λ ext, ends_with ext (lower fb.1))
                         [lit ".png"; lit ".jpg"; lit ".jpeg"; lit ".gif"]
              then Some (Image fb.1 fb.2) else None)
           files
  | None => []
  end.

(** The first contact list of the folder, lines 73-77. *)
Definition find_csv (lower : str → str) (f : folder) : option str :=
  head (filter (λ n, ends_with (lit ".csv") (lower n) = true) (listing f)).

(** What [enviar_correos] takes from a loaded campaign: lines 198-235. *)
Definition campaign_of_folder (lower : str → str) (f : folder)
    (config : config_json) : campaign :=
  Campaign (csv_records f <$> find_csv lower f)
           (load_html_template f config s_es)
           (load_html_template f config s_en)
           (get_images_to_embed lower f)
           (cj_subjects config).

(** [load_campaign_config]: [None] when there is no such campaign, after
    listing the campaigns there are. *)
Definition load_campaign_config (lower : str → str)
    (root : option (list (str * entry))) (campaign_id : str)
  : res (option (folder * config_json)) :=
  match root ≫= lookup_entry campaign_id with
  | Some (Sub f) =>
      match config_file f with
      | Some loaded => config ← loaded; Ok (Some (f, config))
      | None => _ ← list_campaigns root; Ok None
      end
  | _ => _ ← list_campaigns root; Ok None
  end.

(** [enviar_correos(campaign_id)] from the campaigns directory; an empty
    identifier stands for none given. *)
Definition enviar_correos_from (lower : str → str)
    (root : option (list (str * entry))) (campaign_id : str) (server : smtp)
  : res result :=
  let campaign_id :=
    match campaign_id with [] => DEFAULT_CAMPAIGN | _ => campaign_id end in
  loaded ← load_campaign_config lower root campaign_id;
  Ok (enviar_correos lower
        ((λ fc : folder * config_json, campaign_of_folder lower fc.1 fc.2) <$> loaded)
        server).

(** A campaigns directory: a stray file, a folder without [config.json],
    and two campaigns, the second with a [config.json] that names no
    templates. *)
Definition folder_beta : folder :=
  Folder (Some (Ok (ConfigJson (Some (lit "Beta"))
                      (Some {[ s_es := lit "es.html"; s_en := lit "en.html" ]})
                      None)))
         [lit "config.json"; lit "es.html"; lit "en.html"; lit "Contacts.CSV"]
         {[ lit "es.html" := tpl_es; lit "en.html" := tpl_en ]}
         (λ _, [fieldnames; rec_ana; rec_dan])
         (Some [(lit "logo.PNG", Some [137]); (lit "notes.txt", Some [])]).

Definition folder_plain : folder :=
  Folder (Some (Ok (ConfigJson None None None)))
         [lit "config.json"; lit "template_es.html"]
         {[ lit "template_es.html" := tpl_es ]}
         (λ _, [])
         None.

Definition folder_empty : folder := Folder None [] ∅ (λ _, []) None.


Definition root_ok : list (str * entry) :=
  [(lit "README.md", Plain); (lit "drafts", Sub folder_empty);
   (DEFAULT_CAMPAIGN, Sub folder_beta); (lit "plain", Sub folder_plain)].


(** The positions of [s] at which [old] occurs. *)
Definition positions (old s : str) : list nat :=
  filter (λ n, starts_with old (drop n s) = true) (seq 0 (S (List.length s))).

(** * Properties *)

(** ** Text *)

Example replace_ex :
  replace (lit "Hola $name, $name!") (lit "$name") (lit "Ana")
  = lit "Hola Ana, Ana!".
Proof. reflexivity. Qed.

Example split_ex : split (lit "  Ana   Ruiz ") = [lit "Ana"; lit "Ruiz"].
Proof. reflexivity. Qed.

Example split_blank : split (lit "   ") = [].
Proof. reflexivity. Qed.

Lemma split_from_words s : ∀ cur,
  Forall (λ c, isspace c = false) cur → Forall word (split_from cur s).
Proof.
  induction s as [|c s IH]; intros cur Hcur; simpl.
  - destruct cur as [|a cur]; [constructor|].
    repeat constructor.
    + intros E. apply (f_equal (@List.length _)) in E.
      rewrite length_rev in E. discriminate.
    + apply Forall_rev, Hcur.
  - destruct (isspace c) eqn:Hc.
    + destruct cur as [|a cur]; [by apply IH|].
      constructor; [|by apply IH]. split.
      * intros E. apply (f_equal (@List.length _)) in E.
        rewrite length_rev in E. discriminate.
      * apply Forall_rev, Hcur.
    + apply IH. by constructor.
Qed.

Lemma split_words s : Forall word (split s).
Proof. apply split_from_words. constructor. Qed.

Lemma lstrip_id t : Forall (λ c, isspace c = false) t → lstrip t = t.
Proof. destruct 1 as [|c t Hc _]; simpl; [done|by rewrite Hc]. Qed.

Lemma strip_word t : word t → strip t = t.
Proof.
  intros [_ Ht]. unfold strip.
  rewrite (lstrip_id t Ht), lstrip_id by by apply Forall_rev.
  apply rev_involutive.
Qed.

Lemma first_token_word s t : first_token s = Ok t → word t.
Proof.
  unfold first_token. pose proof (split_words s) as Hw.
  destruct (split s) as [|t' ts]; [done|].
  intros [= <-]. by inversion Hw.
Qed.

(** [split] finds no word exactly in a string that is all whitespace. *)
Lemma split_from_nil s : ∀ cur,
  split_from cur s = [] ↔ cur = [] ∧ Forall (λ c, isspace c = true) s.
Proof.
  induction s as [|c s IH]; intros cur; simpl.
  - destruct cur; [by split; [split; [|constructor]|]|].
    split; [done|by intros [? _]].
  - destruct (isspace c) eqn:Hc.
    + destruct cur.
      * rewrite IH. split; intros [? H]; split; try done.
        -- by constructor.
        -- by inversion H.
      * split; [done|by intros [? _]].
    + rewrite IH. split; [by intros [? _]|].
      intros [_ H]. inversion H. congruence.
Qed.

Lemma split_nil s : split s = [] ↔ Forall (λ c, isspace c = true) s.
Proof.
  unfold split. rewrite split_from_nil. split; [by intros [_ ?]|by split].
Qed.

Lemma first_token_blank s :
  Forall (λ c, isspace c = true) s → first_token s = Raise IndexError.
Proof. unfold first_token. by intros ->%split_nil. Qed.

(** ** One contact *)

Ltac unbind := unfold mbind, res_bind, mret, res_ret.

Section Contact.
Context (lower : str → str) (cfg : campaign) (server : smtp).

Lemma process_blank_name c k :
  blank_name c → process lower cfg server c k = Raise IndexError.
Proof.
  intros (s & Hs & Hb). unfold process. rewrite Hs. unbind.
  by rewrite (first_token_blank s Hb).
Qed.

Lemma process_si c k o :
  field_is lower c k_enviado s_no s_si →
  process lower cfg server c k = Ok o → o = Skipped ∨ o = AlreadySent.
Proof.
  intros (s & Hs & Hn). unfold process. rewrite Hs. unbind.
  repeat (case_match; try done).
  all: try by (intros [= <-]; auto).
  all: rewrite Hn in *; by rewrite bool_decide_eq_true_2 in *.
Qed.

Lemma process_android c k o :
  field_is lower c k_device s_no s_android →
  process lower cfg server c k = Ok o → o = Skipped.
Proof.
  intros (s & Hs & Hn). unfold process. rewrite Hs. unbind.
  repeat (case_match; try done).
  all: try by (intros [= <-]; auto).
  all: rewrite Hn in *; rewrite (bool_decide_eq_true_2 (s_android = s_android)) in * by done.
  all: by rewrite !orb_true_r in *.
Qed.
End Contact.

(** ** The send loop *)

Section Loop.
Context (lower : str → str) (cfg : campaign) (server : smtp).

Local Abbreviation process' := (process lower cfg server).
Local Abbreviation send_loop' := (send_loop lower cfg server).

(** Every contact the loop got through was processed without an
    exception leaving the loop, and is marked exactly when sent. *)
Lemma send_loop_lookup cs : ∀ k rows e i c' o,
  send_loop' cs k = (rows, e) → rows !! i = Some (c', o) →
  ∃ c k', cs !! i = Some c ∧ process' c k' = Ok o
          ∧ c' = if succeeded o then mark_sent c else c.
Proof.
  induction cs as [|c cs IH]; intros k rows e i c' o; simpl.
  - by intros [= <- <-].
  - destruct (process' c k) as [o1|x] eqn:Hp; [|by intros [= <- <-]].
    destruct (send_loop' cs _) as [rows1 e1] eqn:Hl.
    intros [= <- <-]. destruct i as [|i]; simpl.
    + intros [= <- <-]. by exists c, k.
    + intros Hi. destruct (IH _ _ _ _ _ _ Hl Hi) as (c0 & k' & ? & ? & ?).
      by exists c0, k'.
Qed.

Lemma send_loop_length cs : ∀ k rows e,
  send_loop' cs k = (rows, e) → (List.length rows ≤ List.length cs)%nat.
Proof.
  induction cs as [|c cs IH]; intros k rows e; simpl.
  - by intros [= <- <-].
  - destruct (process' c k) as [o1|x]; [|intros [= <- <-]; simpl; lia].
    destruct (send_loop' cs _) as [rows1 e1] eqn:Hl.
    intros [= <- <-]. simpl. apply IH in Hl. lia.
Qed.

Lemma send_loop_complete cs : ∀ k rows,
  send_loop' cs k = (rows, None) → List.length rows = List.length cs.
Proof.
  induction cs as [|c cs IH]; intros k rows; simpl.
  - by intros [= <-].
  - destruct (process' c k) as [o1|x]; [|done].
    destruct (send_loop' cs _) as [rows1 e1] eqn:Hl.
    intros [= <- ->]. simpl. f_equal. by eapply IH.
Qed.

(** An exception that leaves the loop was raised by the first contact
    the loop did not get through. *)
Lemma send_loop_raise cs : ∀ k rows x,
  send_loop' cs k = (rows, Some x) →
  ∃ c k', cs !! List.length rows = Some c ∧ process' c k' = Raise x.
Proof.
  induction cs as [|c cs IH]; intros k rows x; simpl.
  - done.
  - destruct (process' c k) as [o1|x1] eqn:Hp.
    + destruct (send_loop' cs _) as [rows1 e1] eqn:Hl.
      intros [= <- ->]. simpl. by eapply IH.
    + intros [= <- <-]. by exists c, k.
Qed.

(** A contact on which the loop body raises stops the loop at it or
    before it. *)
Lemma send_loop_stops cs : ∀ k rows e i c,
  cs !! i = Some c → (∀ k', ∃ x, process' c k' = Raise x) →
  send_loop' cs k = (rows, e) → (List.length rows ≤ i)%nat ∧ is_Some e.
Proof.
  induction cs as [|c0 cs IH]; intros k rows e i c; [done|].
  intros Hi Hr. simpl.
  destruct (process' c0 k) as [o1|x] eqn:Hp.
  - destruct (send_loop' cs _) as [rows1 e1] eqn:Hl.
    intros [= <- <-]. destruct i as [|i]; simpl in *.
    + injection Hi as ->. destruct (Hr k) as [x Hx]. congruence.
    + destruct (IH _ _ _ _ _ Hi Hr Hl). split; [lia|done].
  - intros [= <- <-]. split; [simpl; lia|done].
Qed.

End Loop.

(** ** The rewrite *)

Lemma writerows_lookup ds : ∀ w e i rec,
  writerows ds = (w, e) → w !! i = Some rec →
  ∃ d, ds !! i = Some d ∧ dict_to_list d = Ok rec.
Proof.
  induction ds as [|d ds IH]; intros w e i rec; simpl.
  - by intros [= <- <-].
  - destruct (dict_to_list d) as [r|x] eqn:Hd; [|by intros [= <- <-]].
    destruct (writerows ds) as [w1 e1] eqn:Hw.
    intros [= <- <-]. destruct i as [|i]; simpl.
    + intros [= <-]. by exists d.
    + intros Hi. by eapply IH.
Qed.

Lemma writerows_complete ds : ∀ w,
  writerows ds = (w, None) → List.length w = List.length ds.
Proof.
  induction ds as [|d ds IH]; intros w; simpl.
  - by intros [= <-].
  - destruct (dict_to_list d) as [r|x]; [|done].
    destruct (writerows ds) as [w1 e1] eqn:Hw.
    intros [= <- ->]. simpl. f_equal. by apply IH.
Qed.

Lemma dict_to_list_wrong d : wrong_fields d = true → dict_to_list d = Raise ValueError.
Proof. unfold dict_to_list. by intros ->. Qed.

Lemma dict_to_list_ok d rec : dict_to_list d = Ok rec → wrong_fields d = false.
Proof. unfold dict_to_list. by destruct (wrong_fields d). Qed.

(** A row with a key outside [fieldnames] stops the rewrite at it or
    before it, with [ValueError]. *)
Lemma writerows_wrong ds : ∀ w e i d,
  ds !! i = Some d → wrong_fields d = true →
  writerows ds = (w, e) → (List.length w ≤ i)%nat ∧ e = Some ValueError.
Proof.
  induction ds as [|d0 ds IH]; intros w e i d; [done|].
  intros Hi Hw. simpl.
  destruct (dict_to_list d0) as [r|x] eqn:Hd.
  - destruct (writerows ds) as [w1 e1] eqn:Hws.
    intros [= <- <-]. destruct i as [|i]; simpl in *.
    + injection Hi as ->. rewrite dict_to_list_wrong in Hd; done.
    + destruct (IH _ _ _ _ Hi Hw eq_refl). split; [lia|done].
  - intros [= <- <-]. split; [simpl; lia|].
    unfold dict_to_list in Hd. destruct (wrong_fields d0); congruence.
Qed.

(** The rewrite raises nothing but [ValueError]. *)
Lemma writerows_exn ds : ∀ w x, writerows ds = (w, Some x) → x = ValueError.
Proof.
  induction ds as [|d ds IH]; intros w x; simpl; [done|].
  unfold dict_to_list at 1. destruct (wrong_fields d); [by intros [= <- <-]|].
  destruct (writerows ds) as [w1 e1]. intros [= <- ->]. by eapply IH.
Qed.

Lemma k_enviado_fieldname : k_enviado ∈ (list_to_set fieldnames : gset str).
Proof. unfold fieldnames. set_solver. Qed.

(** Marking a contact sent adds no key outside [fieldnames]. *)
Lemma wrong_fields_mark_sent c : wrong_fields (mark_sent c) = wrong_fields c.
Proof.
  unfold wrong_fields, mark_sent. simpl. destruct (rest c); [done|].
  f_equal. apply bool_decide_ext. rewrite dom_insert_L.
  pose proof k_enviado_fieldname as Hk. split.
  - intros H x Hx. apply H, elem_of_union. by right.
  - intros H x [->%elem_of_singleton|Hx]%elem_of_union; [done|by apply H].
Qed.

(** The [enviado] cell is the fourth of a written record. *)
Lemma dict_to_list_enviado d rec :
  dict_to_list d = Ok rec →
  rec !! 3%nat = Some (cell (default (Some []) (fields d !! k_enviado))).
Proof.
  unfold dict_to_list. destruct (wrong_fields d); [done|]. by intros [= <-].
Qed.

Lemma dict_to_list_mark_sent c rec :
  dict_to_list (mark_sent c) = Ok rec → rec !! 3%nat = Some s_si.
Proof.
  intros H. rewrite (dict_to_list_enviado _ _ H). unfold mark_sent. simpl.
  by rewrite lookup_insert_eq.
Qed.

(** In the documented layout the rewrite gives back the record that was
    read. *)
Lemma dict_to_list_read_row (r : record) :
  List.length r = 5%nat → dict_to_list (read_row fieldnames r) = Ok r.
Proof.
  by destruct r as [|a [|b [|c [|d [|e [|]]]]]].
Qed.

(** ** The run *)

Lemma handler_not_updated e n p : handler e ≠ Updated n p.
Proof. by destruct e. Qed.

Section Session.
Context (lower : str → str) (cfg : campaign) (server : smtp).

(** The contact list is opened for writing only after a loop and a
    [quit] that raised nothing. *)
Lemma session_written p f :
  r_written (session lower cfg server p) = Some f →
  ∃ rows w e,
    connect server = None ∧ quit server = None
    ∧ send_loop lower cfg server (contactos cfg) O = (rows, None)
    ∧ writerows (map fst rows) = (w, e)
    ∧ f = fieldnames :: w
    ∧ r_rows (session lower cfg server p) = rows
    ∧ r_status (session lower cfg server p)
      = match e with
        | None => Updated (enviados rows) p
        | Some x => handler x
        end.
Proof.
  unfold session. destruct (connect server); [done|].
  destruct (send_loop _ _ _ _ _) as [rows [x|]] eqn:Hl; [done|].
  destruct (quit server); [done|].
  destruct (writerows _) as [w [x|]] eqn:Hw; simpl; intros [= <-].
  - by exists rows, w, (Some x).
  - by exists rows, w, None.
Qed.

Lemma session_rows p i ro :
  r_rows (session lower cfg server p) !! i = Some ro →
  ∃ rows e, send_loop lower cfg server (contactos cfg) O = (rows, e)
            ∧ rows !! i = Some ro.
Proof.
  unfold session. destruct (connect server); [done|].
  destruct (send_loop _ _ _ _ _) as [rows [x|]] eqn:Hl; simpl.
  - intros. by exists rows, (Some x).
  - destruct (quit server); simpl; [intros; by exists rows, None|].
    destruct (writerows _) as [w [x|]]; simpl; intros; by exists rows, None.
Qed.

Lemma session_updated p n q :
  r_status (session lower cfg server p) = Updated n q →
  ∃ rows w,
    send_loop lower cfg server (contactos cfg) O = (rows, None)
    ∧ writerows (map fst rows) = (w, None)
    ∧ r_written (session lower cfg server p) = Some (fieldnames :: w)
    ∧ r_rows (session lower cfg server p) = rows.
Proof.
  unfold session.
  destruct (connect server) as [x|]; [by intros ?%handler_not_updated|].
  destruct (send_loop _ _ _ _ _) as [rows [x|]] eqn:Hl;
    [by intros ?%handler_not_updated|].
  destruct (quit server) as [x|]; [by intros ?%handler_not_updated|].
  destruct (writerows _) as [w [x|]] eqn:Hw; simpl;
    [by intros ?%handler_not_updated|].
  intros _. by exists rows, w.
Qed.
End Session.

(** A run either returns before the session is opened or is a session over
    a positive number of pending contacts; which of the two does not
    depend on the mail server. *)
Lemma enviar_correos_shape lower camp :
  (∃ s, (∀ server, enviar_correos lower camp server = stop s)
        ∧ ∀ n p, s ≠ Updated n p)
  ∨ (∃ cfg p, camp = Some cfg
       ∧ count_pending lower (contactos cfg) = Ok (S p)
       ∧ ∀ server, enviar_correos lower camp server = session lower cfg server (S p)).
Proof.
  unfold enviar_correos. destruct camp as [cfg|]; [|left; by eexists].
  destruct (csv_file cfg); [|left; by eexists].
  destruct (_ && _); [left; by eexists|].
  destruct (contactos cfg) eqn:Hc; [left; by eexists|].
  destruct (count_pending _ _) as [[|p]|x] eqn:Hp; [left; by eexists| |left; by eexists].
  right. exists cfg, p. by rewrite Hc.
Qed.

Lemma enviar_correos_cases lower camp server :
  (∃ s, enviar_correos lower camp server = stop s ∧ ∀ n p, s ≠ Updated n p)
  ∨ (∃ cfg p, camp = Some cfg
       ∧ count_pending lower (contactos cfg) = Ok (S p)
       ∧ enviar_correos lower camp server = session lower cfg server (S p)).
Proof.
  destruct (enviar_correos_shape lower camp) as [(s & Hs & ?)|(cfg & p & ? & ? & Hs)].
  - left. exists s. by rewrite Hs.
  - right. exists cfg, p. by rewrite Hs.
Qed.

Lemma enviar_correos_written lower cfg server f :
  r_written (enviar_correos lower (Some cfg) server) = Some f →
  ∃ rows w e,
    connect server = None ∧ quit server = None
    ∧ send_loop lower cfg server (contactos cfg) O = (rows, None)
    ∧ writerows (map fst rows) = (w, e)
    ∧ f = fieldnames :: w
    ∧ r_rows (enviar_correos lower (Some cfg) server) = rows
    ∧ (e = None ∨ r_status (enviar_correos lower (Some cfg) server) = Unexpected ValueError).
Proof.
  destruct (enviar_correos_cases lower (Some cfg) server)
    as [(s & -> & _)|(cfg' & p & [= <-] & _ & ->)]; [done|].
  intros (rows & w & e & ? & ? & ? & Hw & ? & ? & Hs)%session_written.
  exists rows, w, e. repeat split; try done.
  destruct e as [x|]; [right|by left].
  by rewrite Hs, (writerows_exn _ _ _ Hw).
Qed.

Lemma enviar_correos_rows lower cfg server i ro :
  r_rows (enviar_correos lower (Some cfg) server) !! i = Some ro →
  ∃ rows e, send_loop lower cfg server (contactos cfg) O = (rows, e)
            ∧ rows !! i = Some ro.
Proof.
  destruct (enviar_correos_cases lower (Some cfg) server)
    as [(s & -> & _)|(cfg' & p & [= <-] & _ & ->)]; [done|].
  apply session_rows.
Qed.

Lemma enviar_correos_updated lower cfg server n q :
  r_status (enviar_correos lower (Some cfg) server) = Updated n q →
  ∃ rows w,
    send_loop lower cfg server (contactos cfg) O = (rows, None)
    ∧ writerows (map fst rows) = (w, None)
    ∧ r_written (enviar_correos lower (Some cfg) server) = Some (fieldnames :: w)
    ∧ r_rows (enviar_correos lower (Some cfg) server) = rows.
Proof.
  destruct (enviar_correos_cases lower (Some cfg) server)
    as [(s & -> & Hs)|(cfg' & p & [= <-] & _ & ->)].
  - simpl. intros ->. by destruct (Hs n q).
  - apply session_updated.
Qed.

Example run_abc :
  r_status (enviar_correos lower_ascii (Some cfg_abc) srv_ok) = Updated 1 2
  ∧ r_written (enviar_correos lower_ascii (Some cfg_abc) srv_ok)
    = Some [fieldnames;
            [lit "Ana Ruiz"; lit "a@x.com"; lit "ios"; lit "si"; lit "es"];
            rec_bob; rec_carla]
  ∧ map (λ ro, m_html <$> match ro.2 with Sent m => Some m | _ => None end)
        (r_rows (enviar_correos lower_ascii (Some cfg_abc) srv_ok))
    = [Some (lit "<p>Hola Ana</p>"); None; None].
Proof. vm_compute. done. Qed.

(** ** Persisted flags after a completed run *)

(** After a completed run the file has one record per contact. *)
Lemma completed_run_rows lower cfg server n p :
  r_status (enviar_correos lower (Some cfg) server) = Updated n p →
  ∃ recs,
    r_written (enviar_correos lower (Some cfg) server) = Some (fieldnames :: recs)
    ∧ List.length recs = List.length (contactos cfg).
Proof.
  intros (rows & w & Hl & Hw & -> & _)%enviar_correos_updated.
  exists w. split; [done|].
  rewrite (writerows_complete _ _ Hw), length_map.
  by eapply send_loop_complete.
Qed.

(** C1. After a run that completes (the session is set up, the loop and
    [quit] raise nothing and the rewrite goes through), the contact list
    is the header followed by one record per contact, in order; the record
    of a contact whose send succeeded has [si] in its [enviado] cell, and
    the record of a contact that was skipped or whose send failed is the
    record of the contact as loaded, so its [enviado] cell holds the prior
    value. *)
Theorem completed_run_flags lower cfg server n p :
  r_status (enviar_correos lower (Some cfg) server) = Updated n p →
  ∃ recs,
    r_written (enviar_correos lower (Some cfg) server) = Some (fieldnames :: recs)
    ∧ List.length recs = List.length (contactos cfg)
    ∧ ∀ i c, contactos cfg !! i = Some c →
        ∃ c' o rec,
          r_rows (enviar_correos lower (Some cfg) server) !! i = Some (c', o)
          ∧ recs !! i = Some rec
          ∧ (succeeded o = true → rec !! 3%nat = Some s_si)
          ∧ (succeeded o = false →
               dict_to_list c = Ok rec ∧ rec !! 3%nat = Some (enviado_cell c)).
Proof.
  intros (rows & w & Hl & Hw & -> & ->)%enviar_correos_updated.
  exists w. split; [done|].
  pose proof (send_loop_complete _ _ _ _ _ _ Hl) as Hlen.
  pose proof (writerows_complete _ _ Hw) as Hlenw.
  rewrite length_map in Hlenw. split; [congruence|].
  intros i c Hi.
  destruct (lookup_lt_is_Some_2 rows i) as [[c' o] Hro].
  { rewrite Hlen. by eapply lookup_lt_Some. }
  destruct (lookup_lt_is_Some_2 w i) as [rec Hrec].
  { rewrite Hlenw, Hlen. by eapply lookup_lt_Some. }
  exists c', o, rec. split; [done|]. split; [done|].
  destruct (send_loop_lookup _ _ _ _ _ _ _ _ _ _ Hl Hro) as (c0 & k' & Hc0 & _ & Hc').
  assert (c0 = c) as -> by congruence.
  destruct (writerows_lookup _ _ _ _ _ Hw Hrec) as (d & Hd & Hdl).
  rewrite list_lookup_fmap, Hro in Hd. simpl in Hd. injection Hd as <-.
  split; intros Ho; rewrite Ho in Hc'; subst c'.
  - by apply dict_to_list_mark_sent with c.
  - split; [done|]. by apply dict_to_list_enviado.
Qed.

Lemma completed_run_flags_abc :
  ∃ recs,
    r_written (enviar_correos lower_ascii (Some cfg_abc) srv_ok)
    = Some (fieldnames :: recs)
    ∧ List.length recs = List.length (contactos cfg_abc)
    ∧ ∀ i c, contactos cfg_abc !! i = Some c →
        ∃ c' o rec,
          r_rows (enviar_correos lower_ascii (Some cfg_abc) srv_ok) !! i
          = Some (c', o)
          ∧ recs !! i = Some rec
          ∧ (succeeded o = true → rec !! 3%nat = Some s_si)
          ∧ (succeeded o = false →
               dict_to_list c = Ok rec ∧ rec !! 3%nat = Some (enviado_cell c)).
Proof.
  apply (completed_run_flags lower_ascii cfg_abc srv_ok 1 2).
  vm_compute. reflexivity.
Defined.

(** ** Failures of the connection setup *)

(** C2. If connecting, STARTTLS or login raises, whatever the exception,
    no contact is processed, so [sendmail] is never called, and the
    contact list is never opened for writing: the file is the input
    file. *)
Theorem setup_failure_leaves_file lower camp server e :
  connect server = Some e →
  r_rows (enviar_correos lower camp server) = []
  ∧ r_written (enviar_correos lower camp server) = None
  ∧ ∀ n p, r_status (enviar_correos lower camp server) ≠ Updated n p.
Proof.
  intros He.
  destruct (enviar_correos_cases lower camp server)
    as [(s & -> & Hs)|(cfg & p & -> & _ & ->)]; [done|].
  unfold session. rewrite He. simpl. repeat split.
  intros n q. apply handler_not_updated.
Qed.

Lemma setup_failure_auth :
  r_rows (enviar_correos lower_ascii (Some cfg_abc) srv_auth) = []
  ∧ r_written (enviar_correos lower_ascii (Some cfg_abc) srv_auth) = None
  ∧ ∀ n p, r_status (enviar_correos lower_ascii (Some cfg_abc) srv_auth)
           ≠ Updated n p.
Proof.
  apply (setup_failure_leaves_file lower_ascii (Some cfg_abc) srv_auth
           SMTPAuthenticationError).
  reflexivity.
Defined.

Example run_auth :
  enviar_correos lower_ascii (Some cfg_abc) srv_auth
  = Result AuthError true [] None.
Proof. vm_compute. done. Qed.

(** ** Nothing pending *)

Lemma count_pending_all_sent lower cs :
  (∀ c, c ∈ cs → field_is lower c k_enviado s_no s_si) →
  count_pending lower cs = Ok O.
Proof.
  induction cs as [|c cs IH]; intros H; [done|]. simpl.
  destruct (H c) as (s & Hs & Hn); [by left|].
  unfold is_pending. rewrite Hs. unbind.
  rewrite IH by (intros; apply H; by right).
  by rewrite bool_decide_eq_true_2.
Qed.

(** C10. If every loaded contact has [enviado] equal to [si] (lowercased,
    trimmed), the run returns before the session is opened and never opens
    the contact list for writing; with a campaign that has a template and
    a non-empty contact list it returns at line 254. *)
Theorem all_sent_returns_early lower cfg server :
  (∀ c, c ∈ contactos cfg → field_is lower c k_enviado s_no s_si) →
  r_connected (enviar_correos lower (Some cfg) server) = false
  ∧ r_written (enviar_correos lower (Some cfg) server) = None
  ∧ csv_after cfg (enviar_correos lower (Some cfg) server) = csv_file cfg
  ∧ (contactos cfg ≠ [] → falsy (template_es cfg) && falsy (template_en cfg) = false →
     r_status (enviar_correos lower (Some cfg) server) = AllSent).
Proof.
  intros H. apply count_pending_all_sent in H.
  unfold enviar_correos, csv_after, contactos in *.
  destruct (csv_file cfg) as [f|]; [|done].
  destruct (_ && _); [done|].
  destruct (dict_reader f); [done|]. by rewrite H.
Qed.

Lemma all_sent_done :
  r_connected (enviar_correos lower_ascii (Some cfg_done) srv_ok) = false
  ∧ r_written (enviar_correos lower_ascii (Some cfg_done) srv_ok) = None
  ∧ csv_after cfg_done (enviar_correos lower_ascii (Some cfg_done) srv_ok)
    = csv_file cfg_done
  ∧ (contactos cfg_done ≠ [] →
     falsy (template_es cfg_done) && falsy (template_en cfg_done) = false →
     r_status (enviar_correos lower_ascii (Some cfg_done) srv_ok) = AllSent).
Proof.
  apply (all_sent_returns_early lower_ascii cfg_done srv_ok).
  intros c Hc. exists (lit " Si "). vm_compute in Hc.
  apply list_elem_of_singleton in Hc. subst c. by vm_compute.
Defined.

(** ** Contacts the loop passes over *)

Section Unattempted.
Context (lower : str → str) (cfg : campaign) (server : smtp).
Context (i : nat) (c : row).
Hypothesis Hi : contactos cfg !! i = Some c.
Hypothesis Hc : ∀ k o, process lower cfg server c k = Ok o → attempted o = false.

Local Abbreviation run := (enviar_correos lower (Some cfg) server).

(** A contact the loop body never attempts stays as loaded. *)
Lemma unattempted_in_memory c' o :
  r_rows run !! i = Some (c', o) → attempted o = false ∧ c' = c.
Proof.
  intros (rows & e & Hl & Hro)%enviar_correos_rows.
  destruct (send_loop_lookup _ _ _ _ _ _ _ _ _ _ Hl Hro) as (c0 & k' & Hc0 & Hp & ->).
  assert (c0 = c) as -> by congruence.
  pose proof (Hc _ _ Hp) as Ha. split; [done|]. by destruct o.
Qed.

(** Whatever record the rewrite writes for it is the record of the
    contact as loaded. *)
Lemma unattempted_written recs rec :
  r_written run = Some (fieldnames :: recs) → recs !! i = Some rec →
  dict_to_list c = Ok rec.
Proof.
  intros (rows & w & e & _ & _ & Hl & Hw & [= <-] & Hr & _)%enviar_correos_written Hrec.
  destruct (writerows_lookup _ _ _ _ _ Hw Hrec) as (d & Hd & Hdl).
  rewrite list_lookup_fmap in Hd.
  destruct (rows !! i) as [[c' o]|] eqn:Hro; [|done].
  simpl in Hd. injection Hd as <-.
  rewrite <- Hr in Hro. by destruct (unattempted_in_memory _ _ Hro) as [_ ->].
Qed.

(** After a completed run its record is there. *)
Lemma unattempted_persisted n p :
  r_status run = Updated n p →
  ∃ recs rec, r_written run = Some (fieldnames :: recs)
              ∧ recs !! i = Some rec ∧ dict_to_list c = Ok rec.
Proof.
  intros Hs.
  destruct (completed_run_rows lower cfg server n p Hs) as (recs & Hw & Hlen).
  destruct (lookup_lt_is_Some_2 recs i) as [rec Hrec].
  { rewrite Hlen. by eapply lookup_lt_Some. }
  exists recs, rec. split; [done|]. split; [done|].
  by eapply unattempted_written.
Qed.
End Unattempted.

Lemma unattempted_passed_over lower cfg server i c :
  contactos cfg !! i = Some c →
  (∀ k o, process lower cfg server c k = Ok o → attempted o = false) →
  passed_over lower cfg server i c.
Proof.
  intros Hi Hc. split; [|split].
  - intros c' o Hro. by eapply unattempted_in_memory.
  - intros recs rec Hw Hrec.
    pose proof (unattempted_written _ _ _ _ _ Hi Hc _ _ Hw Hrec) as Hd.
    split; [done|]. intros r0 Hlen ->.
    rewrite dict_to_list_read_row in Hd by done. congruence.
  - intros n p Hs.
    destruct (unattempted_persisted _ _ _ _ _ Hi Hc _ _ Hs) as (recs & rec & ? & ? & _).
    by exists recs, rec.
Qed.

(** C4. A contact whose [enviado], lowercased and trimmed, is [si]: the
    loop makes no send attempt for it, and its record in the rewritten
    contact list is the record of the contact as loaded. *)
Theorem already_sent_passed_over lower cfg server i c :
  contactos cfg !! i = Some c →
  field_is lower c k_enviado s_no s_si →
  passed_over lower cfg server i c.
Proof.
  intros Hi Hf. apply unattempted_passed_over; [done|].
  intros k o Hp. by destruct (process_si _ _ _ _ _ _ Hf Hp) as [-> | ->].
Qed.

Lemma already_sent_carla :
  passed_over lower_ascii cfg_abc srv_ok 2 (read_row fieldnames rec_carla).
Proof.
  apply (already_sent_passed_over lower_ascii cfg_abc srv_ok 2).
  - vm_compute. reflexivity.
  - exists (lit " Si "). vm_compute. split; reflexivity.
Defined.

(** C5. A contact whose [device], lowercased and trimmed, is [android]:
    the row is skipped, with no send attempt, and its record in the
    rewritten contact list is the record of the contact as loaded. *)
Theorem android_passed_over lower cfg server i c :
  contactos cfg !! i = Some c →
  field_is lower c k_device s_no s_android →
  passed_over lower cfg server i c
  ∧ ∀ k o, process lower cfg server c k = Ok o → o = Skipped.
Proof.
  intros Hi Hf. split.
  - apply unattempted_passed_over; [done|].
    intros k o Hp. by rewrite (process_android _ _ _ _ _ _ Hf Hp).
  - intros k o. by apply process_android.
Qed.

Lemma android_bob :
  passed_over lower_ascii cfg_abc srv_ok 1 (read_row fieldnames rec_bob)
  ∧ ∀ k o, process lower_ascii cfg_abc srv_ok (read_row fieldnames rec_bob) k = Ok o
           → o = Skipped.
Proof.
  apply (android_passed_over lower_ascii cfg_abc srv_ok 1).
  - vm_compute. reflexivity.
  - exists (lit "android"). vm_compute. split; reflexivity.
Defined.

(** ** A blank name *)

Lemma process_raises lower cfg server c k x :
  process lower cfg server c k = Raise x → x = IndexError ∨ x = AttributeError.
Proof.
  unfold process, get_str, first_token. unbind.
  repeat (case_match; try done); intros; simplify_eq; auto.
Qed.

(** C8. A contact whose [nombre] is empty or all whitespace: line 268
    raises [IndexError] before the skip test; no run over a list with such
    a contact ever opens the contact list for writing; once the session is
    set up the run ends in the generic handler, without the loop getting
    to that contact or any after it, and with [IndexError] when the loop
    got as far as that contact; and for no contact is the name that
    reaches the skip test empty. *)
Theorem blank_name_aborts lower cfg server i c :
  contactos cfg !! i = Some c →
  blank_name c →
  (∀ k, process lower cfg server c k = Raise IndexError)
  ∧ r_written (enviar_correos lower (Some cfg) server) = None
  ∧ (connect server = None →
     r_connected (enviar_correos lower (Some cfg) server) = true →
     ∃ e, r_status (enviar_correos lower (Some cfg) server) = Unexpected e
          ∧ (List.length (r_rows (enviar_correos lower (Some cfg) server)) ≤ i)%nat
          ∧ (List.length (r_rows (enviar_correos lower (Some cfg) server)) = i →
             e = IndexError))
  ∧ (∀ s t, first_token s = Ok t → strip t ≠ []).
Proof.
  intros Hi Hb.
  assert (∀ k, process lower cfg server c k = Raise IndexError) as Hp
    by (intros; by apply process_blank_name).
  assert (∀ k rows e, send_loop lower cfg server (contactos cfg) k = (rows, e) →
                      (List.length rows ≤ i)%nat ∧ is_Some e) as Hstop.
  { intros k rows e. apply send_loop_stops with c; [done|]. intros k'. by eexists. }
  split; [done|]. split; [|split].
  - destruct (r_written _) as [f|] eqn:Hw; [|done].
    apply enviar_correos_written in Hw as (rows & w & e & _ & _ & Hl & _).
    destruct (Hstop _ _ _ Hl) as [_ [? [=]]].
  - intros Hconn.
    destruct (enviar_correos_cases lower (Some cfg) server)
      as [(s & -> & _)|(cfg' & p & [= <-] & _ & ->)]; [done|].
    intros _. unfold session. rewrite Hconn.
    destruct (send_loop _ _ _ _ _) as [rows e] eqn:Hl.
    destruct (Hstop _ _ _ Hl) as [Hlen [x ->]]. simpl.
    destruct (send_loop_raise _ _ _ _ _ _ _ Hl) as (c0 & k' & Hc0 & Hx).
    exists x. split; [|split; [done|]].
    + by destruct (process_raises _ _ _ _ _ _ Hx) as [-> | ->].
    + intros Heq. rewrite Heq, Hi in Hc0. injection Hc0 as <-.
      rewrite Hp in Hx. congruence.
  - intros s t Ht. apply first_token_word in Ht.
    rewrite (strip_word _ Ht). by destruct Ht.
Qed.

Lemma blank_name_run :
  (∀ k, process lower_ascii cfg_blank srv_ok (read_row fieldnames rec_blank) k
        = Raise IndexError)
  ∧ r_written (enviar_correos lower_ascii (Some cfg_blank) srv_ok) = None
  ∧ (connect srv_ok = None →
     r_connected (enviar_correos lower_ascii (Some cfg_blank) srv_ok) = true →
     ∃ e, r_status (enviar_correos lower_ascii (Some cfg_blank) srv_ok) = Unexpected e
          ∧ (List.length (r_rows (enviar_correos lower_ascii (Some cfg_blank) srv_ok)) ≤ 1)%nat
          ∧ (List.length (r_rows (enviar_correos lower_ascii (Some cfg_blank) srv_ok)) = 1%nat →
             e = IndexError))
  ∧ (∀ s t, first_token s = Ok t → strip t ≠ []).
Proof.
  apply (blank_name_aborts lower_ascii cfg_blank srv_ok 1).
  - vm_compute. reflexivity.
  - exists (lit "  "). split; [vm_compute; reflexivity|].
    repeat constructor.
Defined.

(** Ana is sent to, the blank name ends the run, Dan is never reached and
    the file does not record that Ana was sent to. *)
Example run_blank :
  r_status (enviar_correos lower_ascii (Some cfg_blank) srv_ok) = Unexpected IndexError
  ∧ map (λ ro, succeeded ro.2) (r_rows (enviar_correos lower_ascii (Some cfg_blank) srv_ok))
    = [true]
  ∧ r_written (enviar_correos lower_ascii (Some cfg_blank) srv_ok) = None.
Proof. vm_compute. done. Qed.

(** ** A row the rewrite cannot write *)

Lemma dict_reader_length (f : csvfile) hdr recs :
  f = hdr :: recs → (List.length (dict_reader f) ≤ List.length recs)%nat.
Proof. intros ->. simpl. rewrite length_map. apply length_filter. Qed.

(** C9. When a loaded row has a key outside the five field names and the
    run gets to the rewrite, the contact list is opened for writing and
    the header and the records before that row at most are written before
    [ValueError] ends the run in the generic handler: the file is left
    with fewer records than there are contacts, and is not the input file
    either. *)
Theorem rewrite_not_atomic lower cfg server i c f :
  contactos cfg !! i = Some c →
  wrong_fields c = true →
  r_written (enviar_correos lower (Some cfg) server) = Some f →
  ∃ w, f = fieldnames :: w
       ∧ (List.length w ≤ i)%nat
       ∧ (List.length w < List.length (contactos cfg))%nat
       ∧ r_status (enviar_correos lower (Some cfg) server) = Unexpected ValueError
       ∧ csv_file cfg ≠ Some f.
Proof.
  intros Hi Hwf (rows & w & e & _ & _ & Hl & Hw & -> & _ & Hs)%enviar_correos_written.
  pose proof (send_loop_complete _ _ _ _ _ _ Hl) as Hlen.
  pose proof (lookup_lt_Some _ _ _ Hi) as Hlt.
  destruct (lookup_lt_is_Some_2 rows i) as [[c' o] Hro]; [lia|].
  destruct (send_loop_lookup _ _ _ _ _ _ _ _ _ _ Hl Hro) as (c0 & k' & Hc0 & _ & Hc').
  assert (c0 = c) as -> by congruence.
  assert (wrong_fields c' = true) as Hwf'.
  { subst c'. destruct (succeeded o); [by rewrite wrong_fields_mark_sent|done]. }
  assert (map fst rows !! i = Some c') as Hmi by by rewrite list_lookup_fmap, Hro.
  destruct (writerows_wrong _ _ _ _ _ Hmi Hwf' Hw) as [Hle ->].
  exists w. split; [done|]. split; [done|]. split; [lia|]. split.
  - by destruct Hs.
  - intros Hf. pose proof (dict_reader_length _ _ _ eq_refl : (List.length (dict_reader (fieldnames :: w)) ≤ _)%nat) as Hd.
    unfold contactos in Hlt. rewrite Hf in Hlt. lia.
Qed.

Lemma rewrite_not_atomic_phone :
  ∃ w, [fieldnames] = fieldnames :: w
       ∧ (List.length w ≤ 0)%nat
       ∧ (List.length w < List.length (contactos cfg_phone))%nat
       ∧ r_status (enviar_correos lower_ascii (Some cfg_phone) srv_ok)
         = Unexpected ValueError
       ∧ csv_file cfg_phone ≠ Some [fieldnames].
Proof.
  apply (rewrite_not_atomic lower_ascii cfg_phone srv_ok 0
           (read_row (fieldnames ++ [lit "telefono"]) (rec_ana ++ [lit "600"]))).
  - vm_compute. reflexivity.
  - vm_compute. reflexivity.
  - vm_compute. reflexivity.
Defined.

(** Both contacts are sent to, and the contact list is left with its
    header alone. *)
Example run_phone :
  map (λ ro, succeeded ro.2) (r_rows (enviar_correos lower_ascii (Some cfg_phone) srv_ok))
  = [true; true]
  ∧ r_written (enviar_correos lower_ascii (Some cfg_phone) srv_ok) = Some [fieldnames]
  ∧ r_status (enviar_correos lower_ascii (Some cfg_phone) srv_ok) = Unexpected ValueError.
Proof. vm_compute. done. Qed.

(** ** A connection lost during the loop *)


Example run_lost :
  map (λ ro, called ro.2) (r_rows (enviar_correos lower_ascii (Some cfg_two) srv_lost))
  = [true; true]
  ∧ r_status (enviar_correos lower_ascii (Some cfg_two) srv_lost)
    = Unexpected SMTPServerDisconnected
  ∧ r_written (enviar_correos lower_ascii (Some cfg_two) srv_lost) = None.
Proof. vm_compute. done. Qed.


Lemma session_loop_rows lower cfg server p :
  connect server = None →
  r_rows (session lower cfg server p)
  = (send_loop lower cfg server (contactos cfg) O).1.
Proof.
  intros Hc. unfold session. rewrite Hc.
  destruct (send_loop _ _ _ _ _) as [rows [x|]]; [done|].
  destruct (quit server); [done|].
  by destruct (writerows _) as [w [x|]].
Qed.



(** ** Rendering *)

(** The template holds one reference to a known image, to [a.png]; the
    text before and after it is not a reference to a known image, and yet
    is rewritten: the first pass turns the whole into a reference to the
    second image, which the second pass replaces. *)
Lemma embed_images_rewrites_more :
  ref_positions (map filename imgs_ab) html_ab = [12%nat]
  ∧ html_ab = html_pre ++ src_images img_a ++ html_post
  ∧ render (lit "Ana") (Some html_ab) imgs_ab = Ok (src_cid img_b)
  ∧ src_cid img_b ≠ html_pre ++ src_cid img_a ++ html_post.
Proof. vm_compute. repeat split; done. Qed.

Lemma starts_with_spec p : ∀ s,
  starts_with p s = true ↔ ∃ post, s = p ++ post.
Proof.
  induction p as [|a p IH]; intros s; simpl.
  - split; [by exists s|done].
  - destruct s as [|b s].
    + split; [done|by intros [? [=]]].
    + rewrite andb_true_iff, N.eqb_eq, IH. split.
      * intros [-> [post ->]]. by exists post.
      * intros [post [= -> ->]]. split; [done|by exists post].
Qed.

Lemma replace_from_skip old new x : ∀ post,
  replace_from old new (List.length x) (x ++ post) = replace_from old new O post.
Proof. induction x as [|a x IH]; intros post; simpl; [done|apply IH]. Qed.

Lemma replace_from_match old new post :
  old ≠ [] →
  replace_from old new O (old ++ post) = new ++ replace_from old new O post.
Proof.
  intros Hold. destruct old as [|a old']; [done|].
  change ((a :: old') ++ post) with (a :: (old' ++ post)).
  cbn [replace_from].
  rewrite (proj2 (starts_with_spec (a :: old') (a :: old' ++ post)))
    by (by exists post).
  cbn [List.length pred]. by rewrite replace_from_skip.
Qed.

Lemma replace_from_mismatch old new c s :
  starts_with old (c :: s) = false →
  replace_from old new O (c :: s) = c :: replace_from old new O s.
Proof. simpl. by intros ->. Qed.

(** The scan up to the first occurrence of [old]. *)
Lemma replace_from_first old new s :
  old ≠ [] →
  ((∀ pre post, s ≠ pre ++ old ++ post) ∧ replace_from old new O s = s)
  ∨ (∃ pre post,
       s = pre ++ old ++ post
       ∧ (∀ pre1 post1, s = pre1 ++ old ++ post1 →
                        (List.length pre ≤ List.length pre1)%nat)
       ∧ replace_from old new O s = pre ++ new ++ replace_from old new O post).
Proof.
  intros Hold. induction s as [|c s IH].
  - left. split; [|done]. intros pre post E. symmetry in E.
    apply app_eq_nil in E as [_ E]. by apply app_eq_nil in E as [E _].
  - destruct (starts_with old (c :: s)) eqn:Hs.
    + right. apply starts_with_spec in Hs as [post Hs].
      exists [], post. rewrite Hs. simpl. split; [done|]. split; [intros; lia|].
      by apply replace_from_match.
    + rewrite (replace_from_mismatch _ _ _ _ Hs).
      assert (∀ post, c :: s ≠ old ++ post) as Hhead.
      { intros post E. rewrite (proj2 (starts_with_spec old (c :: s))) in Hs; [done|].
        by exists post. }
      destruct IH as [[Hno ->]|(pre & post & -> & Hleft & ->)].
      * left. split; [|done]. intros [|c' pre] post E.
        -- by apply (Hhead post).
        -- injection E as -> E. by apply (Hno pre post).
      * right. exists (c :: pre), post. split; [done|]. split; [|done].
        intros [|c' pre1] post1 E.
        -- by destruct (Hhead post1).
        -- injection E as -> E. apply Hleft in E. simpl. lia.
Qed.

Lemma replace_from_replaced old new n : ∀ s,
  old ≠ [] → (List.length s ≤ n)%nat →
  replaced old new s (replace_from old new O s).
Proof.
  induction n as [|n IH]; intros s Hold Hlen.
  - destruct s; [|simpl in Hlen; lia]. simpl. apply replaced_none.
    intros pre post E. symmetry in E.
    apply app_eq_nil in E as [_ E]. by apply app_eq_nil in E as [E _].
  - destruct (replace_from_first old new s Hold)
      as [[Hno ->]|(pre & post & -> & Hleft & ->)].
    + by apply replaced_none.
    + apply replaced_next; [done|]. apply IH; [done|].
      rewrite !length_app in Hlen.
      destruct old; [done|]. simpl in Hlen. lia.
Qed.

(** [str.replace] replaces the occurrences found from the left and keeps
    the text between them. *)
Lemma replace_replaced old new s : old ≠ [] → replaced old new s (replace s old new).
Proof.
  intros Hold. unfold replace. destruct old as [|a old'] eqn:E; [done|].
  rewrite <- E. apply replace_from_replaced with (List.length s); [by rewrite E|done].
Qed.

(** There is one such result. *)
Lemma replaced_functional old new s out1 :
  replaced old new s out1 → ∀ out2, replaced old new s out2 → out1 = out2.
Proof.
  induction 1 as [s Hno|pre post out Hleft Hr IH]; intros out2 H2.
  - inversion H2 as [|pre' post' out' ? ? E]; [done|].
    by destruct (Hno pre' post').
  - inversion H2 as [s' Hno E|pre' post' out' Hleft' Hr' E]; subst.
    + by destruct (Hno pre post).
    + pose proof (Hleft _ _ (eq_sym E)) as H1.
      pose proof (Hleft' _ _ E) as H1'.
      apply app_inj_1 in E as [-> E]; [|lia].
      apply app_inv_head in E as ->. f_equal. f_equal. by apply IH.
Qed.

Lemma replace_absent old new s :
  (∀ pre post, s ≠ pre ++ old ++ post) → replace s old new = s.
Proof.
  intros Hno. unfold replace. destruct old as [|a old'] eqn:E.
  - by destruct (Hno [] s).
  - rewrite <- E in *.
    destruct (replace_from_first old new s) as [[_ ->]|(pre & post & -> & _)];
      [by rewrite E|done|].
    by destruct (Hno pre post).
Qed.

Lemma src_images_nonempty fn : src_images fn ≠ [].
Proof. done. Qed.

Lemma embed_images_rewritten imgs : ∀ html,
  rewritten (map filename imgs) html (embed_images html imgs).
Proof.
  induction imgs as [|img imgs IH]; intros html; simpl.
  - constructor.
  - econstructor; [|apply IH]. apply replace_replaced, src_images_nonempty.
Qed.

Lemma rewritten_functional fns : ∀ html out1 out2,
  rewritten fns html out1 → rewritten fns html out2 → out1 = out2.
Proof.
  induction fns as [|fn fns IH]; intros html out1 out2 H1 H2;
    inversion H1; inversion H2; subst; [done|].
  eapply IH; [done|].
  by match goal with
     | Ha : replaced _ _ html ?x, Hb : replaced _ _ html ?y |- _ =>
         rewrite (replaced_functional _ _ _ _ Ha _ Hb)
     end.
Qed.

Lemma embed_images_absent imgs : ∀ html,
  (∀ img pre post, img ∈ imgs → html ≠ pre ++ src_images (filename img) ++ post) →
  embed_images html imgs = html.
Proof.
  induction imgs as [|img imgs IH]; intros html Hno; [done|].
  change (embed_images html (img :: imgs))
    with (embed_images (replace html (src_images (filename img))
                                     (src_cid (filename img))) imgs).
  rewrite replace_absent by (intros; apply Hno; by left).
  apply IH. intros; apply Hno; by right.
Qed.

(** [filename.replace('.', '_')] puts [_] for every [.] *)
Lemma content_id_spec fn :
  content_id fn = map (λ c, if c =? 46 then 95 else c) fn.
Proof.
  unfold content_id, replace.
  change (lit ".") with [46]. change (lit "_") with [95].
  induction fn as [|c fn IH]; [done|].
  cbn [replace_from starts_with List.length pred map].
  rewrite andb_true_r, N.eqb_sym.
  destruct (c =? 46); cbn [app]; by rewrite IH.
Qed.

(** C6, as the code has it. The body is the template with the first name
    put in and the image references then rewritten file name by file
    name: for each known file name in turn, the occurrences of
    [src="images/<filename>"] in the HTML the pass before left are
    replaced by [src="cid:<contentId>"], [contentId] being the file name
    with [_] for every [.], and the text between them is kept. That
    determines the body. A body with no reference to a known image is left
    as it is. *)
Theorem image_refs_rewritten_in_turn nombre t imgs first :
  first_token nombre = Ok first →
  ∃ html,
    render nombre (Some t) imgs = Ok html
    ∧ rewritten (map filename imgs) (replace t (lit "$name") first) html
    ∧ (∀ out, rewritten (map filename imgs) (replace t (lit "$name") first) out →
              out = html)
    ∧ ((∀ img pre post, img ∈ imgs →
          replace t (lit "$name") first ≠ pre ++ src_images (filename img) ++ post) →
       html = replace t (lit "$name") first)
    ∧ ∀ fn, content_id fn = map (λ c, if c =? 46 then 95 else c) fn.
Proof.
  intros Hf. eexists. split; [|split; [|split; [|split]]].
  - unfold render. rewrite Hf. reflexivity.
  - apply embed_images_rewritten.
  - intros out Hout. eapply rewritten_functional; [done|apply embed_images_rewritten].
  - apply embed_images_absent.
  - apply content_id_spec.
Qed.

Lemma image_refs_rewritten_ab :
  ∃ html,
    render (lit "Ana Ruiz") (Some html_ab) imgs_ab = Ok html
    ∧ rewritten (map filename imgs_ab) (replace html_ab (lit "$name") (lit "Ana")) html
    ∧ (∀ out, rewritten (map filename imgs_ab)
                        (replace html_ab (lit "$name") (lit "Ana")) out →
              out = html)
    ∧ ((∀ img pre post, img ∈ imgs_ab →
          replace html_ab (lit "$name") (lit "Ana")
          ≠ pre ++ src_images (filename img) ++ post) →
       html = replace html_ab (lit "$name") (lit "Ana"))
    ∧ ∀ fn, content_id fn = map (λ c, if c =? 46 then 95 else c) fn.
Proof.
  apply (image_refs_rewritten_in_turn (lit "Ana Ruiz") html_ab imgs_ab (lit "Ana")).
  reflexivity.
Defined.



(** * Further properties of the run *)

(** ** Counting *)

Lemma process_sent_pending lower cfg server c k o :
  process lower cfg server c k = Ok o → succeeded o = true →
  is_pending lower c = Ok true.
Proof.
  unfold process, is_pending. unbind.
  repeat (case_match; try done); intros; simplify_eq; try done.
  all: by match goal with H : bool_decide _ = false |- _ => rewrite H end.
Qed.

Lemma send_loop_enviados lower cfg server cs : ∀ k rows e p,
  send_loop lower cfg server cs k = (rows, e) →
  count_pending lower cs = Ok p →
  (enviados rows ≤ p)%nat.
Proof.
  unfold enviados.
  induction cs as [|c cs IH]; intros k rows e p; simpl.
  - intros [= <- <-] [= <-]. done.
  - destruct (process lower cfg server c k) as [o|x] eqn:Hp;
      [|intros [= <- <-] _; simpl; lia].
    destruct (send_loop lower cfg server cs _) as [rows1 e1] eqn:Hl.
    intros [= <- <-]. unbind.
    destruct (is_pending lower c) as [b|] eqn:Hb; [|done].
    destruct (count_pending lower cs) as [q|] eqn:Hq; [|done].
    intros [= <-]. specialize (IH _ _ _ _ Hl eq_refl).
    rewrite filter_cons. simpl. destruct (succeeded o) eqn:Ho.
    + rewrite (process_sent_pending _ _ _ _ _ _ Hp Ho) in Hb.
      injection Hb as <-. rewrite decide_True by done. simpl. lia.
    + rewrite decide_False by done. destruct b; lia.
Qed.

(** X1. The two numbers of the closing report: the first counts the
    contacts sent to in this run, the second the contacts that were
    pending when it began, and the first never exceeds the second. *)
Theorem enviados_le_pendientes lower cfg server n p :
  r_status (enviar_correos lower (Some cfg) server) = Updated n p →
  (n ≤ p)%nat
  ∧ (0 < p)%nat
  ∧ count_pending lower (contactos cfg) = Ok p
  ∧ n = enviados (r_rows (enviar_correos lower (Some cfg) server)).
Proof.
  destruct (enviar_correos_shape lower (Some cfg))
    as [(s & Hs & Hn)|(cfg' & q & [= <-] & Hq & Hs)]; rewrite Hs.
  - simpl. intros ->. by destruct (Hn n p).
  - unfold session.
    destruct (connect server) as [x|]; [by intros ?%handler_not_updated|].
    destruct (send_loop _ _ _ _ _) as [rows [x|]] eqn:Hl;
      [by intros ?%handler_not_updated|].
    destruct (quit server) as [x|]; [by intros ?%handler_not_updated|].
    destruct (writerows _) as [w [x|]] eqn:Hw; simpl;
      [by intros ?%handler_not_updated|].
    intros [= <- <-]. split; [by eapply send_loop_enviados|].
    split; [lia|done].
Qed.

Lemma enviados_le_pendientes_abc :
  (1 ≤ 2)%nat
  ∧ (0 < 2)%nat
  ∧ count_pending lower_ascii (contactos cfg_abc) = Ok 2%nat
  ∧ 1%nat = enviados (r_rows (enviar_correos lower_ascii (Some cfg_abc) srv_ok)).
Proof.
  apply (enviados_le_pendientes lower_ascii cfg_abc srv_ok 1 2).
  vm_compute. reflexivity.
Defined.

(** ** Reading back what the rewrite wrote *)

Lemma dict_to_list_length d rec : dict_to_list d = Ok rec → List.length rec = 5%nat.
Proof. unfold dict_to_list. destruct (wrong_fields d); [done|]. by intros [= <-]. Qed.

Lemma writerows_layout ds w e :
  writerows ds = (w, e) → Forall (λ r, List.length r = 5%nat) w.
Proof.
  intros Hw. apply Forall_lookup. intros i rec Hrec.
  destruct (writerows_lookup _ _ _ _ _ Hw Hrec) as (d & _ & Hd).
  by eapply dict_to_list_length.
Qed.

(** A file in the documented layout (the five columns in the order of
    [fieldnames], five cells per record) is read as one contact per
    record. *)
Lemma dict_reader_layout (recs : csvfile) :
  Forall (λ r, List.length r = 5%nat) recs →
  dict_reader (fieldnames :: recs) = map (read_row fieldnames) recs.
Proof.
  intros H. unfold dict_reader. f_equal.
  induction H as [|r recs Hr _ IH]; [done|].
  rewrite filter_cons. destruct r; [done|].
  case_decide; [by rewrite IH|done].
Qed.

Lemma read_row_enviado (r : record) x :
  List.length r = 5%nat → r !! 3%nat = Some x →
  get_str (read_row fieldnames r) k_enviado s_no = Ok x.
Proof.
  destruct r as [|a [|b [|c [|d [|e [|]]]]]]; try done.
  intros _ [= <-]. done.
Qed.

Lemma dict_to_list_mark_sent_read (r : record) :
  List.length r = 5%nat →
  dict_to_list (mark_sent (read_row fieldnames r)) = Ok (<[3%nat := s_si]> r).
Proof. by destruct r as [|a [|b [|c [|d [|e [|]]]]]]. Qed.

Lemma norm_si lower : lower s_si = s_si → norm lower s_si = s_si.
Proof. unfold norm. by intros ->. Qed.

(** X2. A later run over the contact list a completed run wrote makes no
    send attempt for a contact the earlier run sent to, whatever the mail
    server does, provided lowercasing leaves [si] as it is. *)
Theorem rerun_skips_sent lower cfg server server2 n p f i c m :
  lower s_si = s_si →
  r_status (enviar_correos lower (Some cfg) server) = Updated n p →
  r_written (enviar_correos lower (Some cfg) server) = Some f →
  r_rows (enviar_correos lower (Some cfg) server) !! i = Some (c, Sent m) →
  (∃ c2, contactos (with_csv cfg f) !! i = Some c2
         ∧ field_is lower c2 k_enviado s_no s_si)
  ∧ ∀ c2 o2,
      r_rows (enviar_correos lower (Some (with_csv cfg f)) server2) !! i
      = Some (c2, o2) →
      attempted o2 = false.
Proof.
  intros Hlow (rows & w & Hl & Hw & Hf & Hr)%enviar_correos_updated Hf' Hro.
  rewrite Hf in Hf'. injection Hf' as <-. rewrite Hr in Hro.
  pose proof (writerows_layout _ _ _ Hw) as Hlay.
  pose proof (writerows_complete _ _ Hw) as Hlen. rewrite length_map in Hlen.
  destruct (lookup_lt_is_Some_2 w i) as [rec Hrec].
  { rewrite Hlen. by eapply lookup_lt_Some. }
  destruct (writerows_lookup _ _ _ _ _ Hw Hrec) as (d & Hd & Hdl).
  rewrite list_lookup_fmap, Hro in Hd. simpl in Hd. injection Hd as <-.
  destruct (send_loop_lookup _ _ _ _ _ _ _ _ _ _ Hl Hro) as (c0 & k' & _ & _ & Hc).
  simpl in Hc. subst c.
  pose proof (dict_to_list_mark_sent _ _ Hdl) as H3.
  assert (contactos (with_csv cfg (fieldnames :: w)) !! i
          = Some (read_row fieldnames rec)) as Hi2.
  { unfold contactos, with_csv. cbn [csv_file].
    rewrite dict_reader_layout by done. by rewrite list_lookup_fmap, Hrec. }
  assert (field_is lower (read_row fieldnames rec) k_enviado s_no s_si) as Hsi.
  { exists s_si. split; [|by apply norm_si].
    apply read_row_enviado; [|done]. by eapply dict_to_list_length. }
  split; [by eexists|].
  intros c2 o2 Hro2.
  eapply (unattempted_in_memory lower (with_csv cfg (fieldnames :: w)) server2 i
            (read_row fieldnames rec) Hi2); [|done].
  intros k o Hp. by destruct (process_si _ _ _ _ _ _ Hsi Hp) as [-> | ->].
Qed.

Lemma rerun_skips_sent_abc :
  (∃ c2, contactos (with_csv cfg_abc
                      [fieldnames;
                       [lit "Ana Ruiz"; lit "a@x.com"; lit "ios"; lit "si"; lit "es"];
                       rec_bob; rec_carla]) !! 0%nat = Some c2
         ∧ field_is lower_ascii c2 k_enviado s_no s_si)
  ∧ ∀ c2 o2,
      r_rows (enviar_correos lower_ascii
                (Some (with_csv cfg_abc
                         [fieldnames;
                          [lit "Ana Ruiz"; lit "a@x.com"; lit "ios"; lit "si"; lit "es"];
                          rec_bob; rec_carla])) srv_lost) !! 0%nat
      = Some (c2, o2) →
      attempted o2 = false.
Proof.
  eapply (rerun_skips_sent lower_ascii cfg_abc srv_ok srv_lost 1 2 _ 0).
  - reflexivity.
  - vm_compute. reflexivity.
  - vm_compute. reflexivity.
  - vm_compute. reflexivity.
Defined.

(** X3. For a contact list in the documented layout, a completed run
    writes back record for record what it read, the [enviado] cell of the
    contacts it sent to set to [si] and nothing else changed. *)
Theorem layout_file_rewritten lower cfg server n p (recs : csvfile) :
  csv_file cfg = Some (fieldnames :: recs) →
  Forall (λ r, List.length r = 5%nat) recs →
  r_status (enviar_correos lower (Some cfg) server) = Updated n p →
  ∃ w,
    r_written (enviar_correos lower (Some cfg) server) = Some (fieldnames :: w)
    ∧ List.length w = List.length recs
    ∧ ∀ i rec, recs !! i = Some rec →
        ∃ c o,
          r_rows (enviar_correos lower (Some cfg) server) !! i = Some (c, o)
          ∧ w !! i = Some (if succeeded o then <[3%nat := s_si]> rec else rec).
Proof.
  intros Hcsv Hlay (rows & w & Hl & Hw & -> & ->)%enviar_correos_updated.
  assert (contactos cfg = map (read_row fieldnames) recs) as Hcs.
  { unfold contactos. rewrite Hcsv. by apply dict_reader_layout. }
  pose proof (send_loop_complete _ _ _ _ _ _ Hl) as Hlen.
  pose proof (writerows_complete _ _ Hw) as Hlenw.
  rewrite length_map in Hlenw. rewrite Hcs, length_map in Hlen.
  exists w. split; [done|]. split; [congruence|].
  intros i rec Hi.
  destruct (lookup_lt_is_Some_2 rows i) as [[c o] Hro].
  { rewrite Hlen. by eapply lookup_lt_Some. }
  destruct (lookup_lt_is_Some_2 w i) as [rec' Hrec'].
  { rewrite Hlenw, Hlen. by eapply lookup_lt_Some. }
  exists c, o. split; [done|]. rewrite Hrec'. f_equal.
  destruct (send_loop_lookup _ _ _ _ _ _ _ _ _ _ Hl Hro) as (c0 & k' & Hc0 & _ & ->).
  rewrite Hcs, list_lookup_fmap, Hi in Hc0. simpl in Hc0. injection Hc0 as <-.
  destruct (writerows_lookup _ _ _ _ _ Hw Hrec') as (d & Hd & Hdl).
  rewrite list_lookup_fmap, Hro in Hd. simpl in Hd. injection Hd as <-.
  pose proof (Forall_lookup_1 _ _ _ _ Hlay Hi) as H5. simpl in H5.
  destruct (succeeded o).
  - rewrite dict_to_list_mark_sent_read in Hdl by done. congruence.
  - rewrite dict_to_list_read_row in Hdl by done. congruence.
Qed.

Lemma layout_file_rewritten_abc :
  ∃ w,
    r_written (enviar_correos lower_ascii (Some cfg_abc) srv_ok)
    = Some (fieldnames :: w)
    ∧ List.length w = List.length [rec_ana; rec_bob; rec_carla]
    ∧ ∀ i rec, [rec_ana; rec_bob; rec_carla] !! i = Some rec →
        ∃ c o,
          r_rows (enviar_correos lower_ascii (Some cfg_abc) srv_ok) !! i = Some (c, o)
          ∧ w !! i = Some (if succeeded o then <[3%nat := s_si]> rec else rec).
Proof.
  apply (layout_file_rewritten lower_ascii cfg_abc srv_ok 1 2).
  - reflexivity.
  - repeat constructor.
  - vm_compute. reflexivity.
Defined.

(** ** A record without an [enviado] cell *)

Lemma is_pending_raises lower c x :
  is_pending lower c = Raise x → x = AttributeError.
Proof.
  unfold is_pending, get_str. unbind.
  repeat (case_match; try done); intros; simplify_eq; auto.
Qed.

Lemma count_pending_raises lower cs x :
  count_pending lower cs = Raise x → x = AttributeError.
Proof.
  induction cs as [|c cs IH]; [done|]. simpl. unbind.
  unfold is_pending, get_str. unbind.
  repeat (case_match; try done); intros; simplify_eq; auto.
Qed.

Lemma count_pending_none lower cs c :
  c ∈ cs → fields c !! k_enviado = Some None →
  count_pending lower cs = Raise AttributeError.
Proof.
  intros Hc Hn. induction Hc as [c cs|c c0 cs Hc IH]; simpl; unbind.
  - unfold is_pending, get_str. rewrite Hn. done.
  - rewrite (IH Hn). destruct (is_pending lower c0) as [b|x] eqn:Hb; [done|].
    by rewrite (is_pending_raises _ _ _ Hb).
Qed.

(** X4. A contact whose [enviado] value is [None], as [DictReader] gives
    for a record that ends before that column, makes the count of line
    249 raise [AttributeError] outside any handler: the run ends with that
    exception before the session is opened, and the contact list is not
    touched. *)
Theorem short_record_escapes lower cfg server c :
  c ∈ contactos cfg →
  fields c !! k_enviado = Some None →
  falsy (template_es cfg) && falsy (template_en cfg) = false →
  r_status (enviar_correos lower (Some cfg) server) = Uncaught AttributeError
  ∧ r_connected (enviar_correos lower (Some cfg) server) = false
  ∧ r_written (enviar_correos lower (Some cfg) server) = None.
Proof.
  intros Hc Hn Ht. pose proof (count_pending_none lower _ _ Hc Hn) as Hp.
  unfold enviar_correos. unfold contactos in *.
  destruct (csv_file cfg) as [f|]; [|by apply elem_of_nil in Hc].
  rewrite Ht. destruct (dict_reader f); [by apply elem_of_nil in Hc|].
  by rewrite Hp.
Qed.

Lemma short_record_escapes_eva :
  r_status (enviar_correos lower_ascii (Some cfg_short) srv_ok)
  = Uncaught AttributeError
  ∧ r_connected (enviar_correos lower_ascii (Some cfg_short) srv_ok) = false
  ∧ r_written (enviar_correos lower_ascii (Some cfg_short) srv_ok) = None.
Proof.
  apply (short_record_escapes lower_ascii cfg_short srv_ok
           (read_row fieldnames rec_short)).
  - vm_compute. apply list_elem_of_In. right. left. reflexivity.
  - vm_compute. reflexivity.
  - reflexivity.
Defined.

(** ** Language and templates *)

Ltac lit_neq := vm_compute; discriminate.

Lemma get_str_set_language c l k dflt :
  k ≠ k_language → get_str (set_language c l) k dflt = get_str c k dflt.
Proof. intros Hk. unfold get_str, set_language. simpl. by rewrite lookup_insert_ne. Qed.

Lemma get_str_set_language_eq c l dflt :
  get_str (set_language c l) k_language dflt = Ok l.
Proof. unfold get_str, set_language. simpl. by rewrite lookup_insert_eq. Qed.

Lemma norm_es lower : lower s_es = s_es → norm lower s_es = s_es.
Proof. unfold norm. by intros ->. Qed.

(** X5. A language that, lowercased and trimmed, is neither [es] nor [en]
    counts as [es]: the contact is handled exactly as if its language were
    [es]. *)
Theorem invalid_language_is_spanish lower cfg server c k l :
  lower s_es = s_es →
  get_str c k_language s_es = Ok l →
  norm lower l ≠ s_es → norm lower l ≠ s_en →
  process lower cfg server c k
  = process lower cfg server (set_language c s_es) k.
Proof.
  intros Hlow Hl Hes Hen. unfold process.
  rewrite (get_str_set_language c s_es k_nombre) by lit_neq.
  rewrite (get_str_set_language c s_es k_email) by lit_neq.
  rewrite (get_str_set_language c s_es k_enviado) by lit_neq.
  rewrite (get_str_set_language c s_es k_device) by lit_neq.
  rewrite get_str_set_language_eq, Hl. unbind.
  rewrite (norm_es lower Hlow).
  rewrite (bool_decide_eq_false_2 _ Hes), (bool_decide_eq_false_2 _ Hen).
  by rewrite (bool_decide_eq_true_2 (s_es = s_es)).
Qed.

Lemma invalid_language_fr :
  process lower_ascii cfg_abc srv_ok
    (read_row fieldnames [lit "Luc"; lit "l@x.com"; lit "ios"; lit "no"; lit "FR"]) 0
  = process lower_ascii cfg_abc srv_ok
      (set_language
         (read_row fieldnames [lit "Luc"; lit "l@x.com"; lit "ios"; lit "no"; lit "FR"])
         s_es) 0.
Proof.
  apply (invalid_language_is_spanish lower_ascii cfg_abc srv_ok _ 0 (lit "FR")).
  - reflexivity.
  - vm_compute. reflexivity.
  - vm_compute. discriminate.
  - vm_compute. discriminate.
Defined.

(** X6. When the English template is missing or empty, a contact whose
    language is [en] is handled exactly as if its language were [es]: it
    gets the Spanish template and the Spanish subject. *)
Theorem english_falls_back_to_spanish lower cfg server c k :
  lower s_es = s_es →
  falsy (template_en cfg) = true →
  field_is lower c k_language s_es s_en →
  process lower cfg server c k
  = process lower cfg server (set_language c s_es) k.
Proof.
  intros Hlow Hen (l & Hl & Hn). unfold process.
  rewrite (get_str_set_language c s_es k_nombre) by lit_neq.
  rewrite (get_str_set_language c s_es k_email) by lit_neq.
  rewrite (get_str_set_language c s_es k_enviado) by lit_neq.
  rewrite (get_str_set_language c s_es k_device) by lit_neq.
  rewrite get_str_set_language_eq, Hl. unbind.
  rewrite (norm_es lower Hlow), Hn.
  rewrite (bool_decide_eq_true_2 (s_en = s_en)) by done.
  rewrite (bool_decide_eq_true_2 (s_es = s_es)) by done.
  rewrite orb_true_r. cbn [orb].
  unfold templates_get.
  rewrite (bool_decide_eq_false_2 (s_en = s_es)) by lit_neq.
  rewrite (bool_decide_eq_true_2 (s_es = s_es)) by done.
  rewrite Hen. by destruct (falsy (template_es cfg)).
Qed.

Lemma english_falls_back_dan :
  process lower_ascii (Campaign (Some [fieldnames; rec_dan]) (Some tpl_es) None [] None)
    srv_ok (read_row fieldnames rec_dan) 0
  = process lower_ascii (Campaign (Some [fieldnames; rec_dan]) (Some tpl_es) None [] None)
      srv_ok (set_language (read_row fieldnames rec_dan) s_es) 0.
Proof.
  apply (english_falls_back_to_spanish lower_ascii
           (Campaign (Some [fieldnames; rec_dan]) (Some tpl_es) None [] None)
           srv_ok _ 0).
  - reflexivity.
  - reflexivity.
  - exists (lit "en"). vm_compute. split; reflexivity.
Defined.

(** ** The message of a contact *)

Lemma split_from_word t : ∀ cur,
  Forall (λ c, isspace c = false) t →
  split_from cur t = match rev cur ++ t with [] => [] | w => [w] end.
Proof.
  induction t as [|c t IH]; intros cur Ht; simpl.
  - rewrite app_nil_r. destruct cur as [|a cur]; [done|].
    simpl. by destruct (rev cur ++ [a]) eqn:E; [destruct (rev cur)|].
  - inversion Ht as [|? ? Hc Ht']; subst. rewrite Hc, (IH _ Ht'). simpl.
    by rewrite <- app_assoc.
Qed.

(** A word is its own first word. *)
Lemma first_token_of_word t : word t → first_token t = Ok t.
Proof.
  intros [Hne Ht]. unfold first_token, split.
  rewrite (split_from_word t [] Ht). simpl. by destruct t.
Qed.

(** Called with the name the loop passes, [create_html_email] fails only
    for want of a template. *)
Lemma create_html_email_word t tpl imgs subj :
  word t →
  create_html_email (strip t) tpl imgs subj
  = match tpl with
    | None => Raise AttributeError
    | Some x => Ok (Message subj [] [] (embed_images (replace x (lit "$name") t) imgs)
                            (inline_images imgs))
    end.
Proof.
  intros Hw. unfold create_html_email, render.
  rewrite (strip_word _ Hw), (first_token_of_word _ Hw). unbind.
  by destruct tpl.
Qed.

(** The loop body, case by case. *)
Lemma process_inv lower cfg server c k o :
  process lower cfg server c k = Ok o →
  ∃ n0 t e0 s0 d0 l0,
    get_str c k_nombre [] = Ok n0 ∧ first_token n0 = Ok t
    ∧ get_str c k_email [] = Ok e0
    ∧ get_str c k_enviado s_no = Ok s0
    ∧ get_str c k_device s_no = Ok d0
    ∧ get_str c k_language s_es = Ok l0
    ∧ ((o = Skipped ∧ (norm lower e0 = [] ∨ norm lower d0 = s_android))
       ∨ (o = AlreadySent ∧ norm lower s0 = s_si)
       ∨ (norm lower e0 ≠ [] ∧ norm lower d0 ≠ s_android ∧ norm lower s0 ≠ s_si
          ∧ ((o = BuildFailed AttributeError
              ∧ (choose_template cfg (valid_language lower l0)).1 = None)
             ∨ ∃ tpl, (choose_template cfg (valid_language lower l0)).1 = Some tpl
                 ∧ ((∃ e, sendmail server k = Some e
                          ∧ o = SendFailed
                                  (message_for cfg t (norm lower e0)
                                     (choose_template cfg (valid_language lower l0)).2 tpl) e)
                    ∨ (sendmail server k = None
                       ∧ o = Sent
                               (message_for cfg t (norm lower e0)
                                  (choose_template cfg (valid_language lower l0)).2 tpl)))))).
Proof.
  unfold process. unbind.
  destruct (get_str c k_nombre []) as [n0|] eqn:Hn0; [|done].
  destruct (first_token n0) as [t|] eqn:Ht; [|done].
  destruct (get_str c k_email []) as [e0|] eqn:He0; [|done].
  destruct (get_str c k_enviado s_no) as [s0|] eqn:Hs0; [|done].
  destruct (get_str c k_device s_no) as [d0|] eqn:Hd0; [|done].
  destruct (get_str c k_language s_es) as [l0|] eqn:Hl0; [|done].
  pose proof (first_token_word _ _ Ht) as Hw.
  fold (valid_language lower l0).
  fold (choose_template cfg (valid_language lower l0)).
  intros H. exists n0, t, e0, s0, d0, l0. repeat (split; [done|]).
  rewrite (strip_word _ Hw) in H.
  rewrite (bool_decide_eq_false_2 (t = [])) in H by by destruct Hw.
  cbn [orb] in H.
  destruct (bool_decide (norm lower e0 = [])) eqn:Be; cbn [orb] in H.
  { apply bool_decide_eq_true in Be. injection H as <-. left. auto. }
  apply bool_decide_eq_false in Be.
  destruct (bool_decide (norm lower d0 = s_android)) eqn:Bd.
  { apply bool_decide_eq_true in Bd. injection H as <-. left. auto. }
  apply bool_decide_eq_false in Bd.
  destruct (bool_decide (norm lower s0 = s_si)) eqn:Bs.
  { apply bool_decide_eq_true in Bs. injection H as <-. right. left. auto. }
  apply bool_decide_eq_false in Bs.
  right. right. repeat (split; [done|]).
  rewrite <- (strip_word _ Hw) in H at 1.
  rewrite (create_html_email_word _ _ _ _ Hw) in H.
  destruct (choose_template cfg (valid_language lower l0)).1 as [tpl|] eqn:Hc.
  - right. exists tpl. split; [done|]. cbn in H.
    destruct (sendmail server k) as [e|]; injection H as <-.
    + left. by exists e.
    + by right.
  - left. by injection H as <-.
Qed.



(** X8. Without the Spanish template file, a contact whose language is
    not [en] is never sent to: [sendmail] is not called for it, even when
    the English template is there. *)
Theorem no_spanish_template_no_send lower cfg server c k o :
  template_es cfg = None →
  ¬ field_is lower c k_language s_es s_en →
  process lower cfg server c k = Ok o →
  called o = false ∧ succeeded o = false.
Proof.
  intros Hes Hen (n0 & t & e0 & s0 & d0 & l0 & _ & _ & _ & _ & _ & Hl & H)%process_inv.
  destruct H as [[-> _]|[[-> _]|(_ & _ & _ & H)]]; [done..|].
  destruct H as [[-> _]|(tpl & Hc & _)]; [done|]. exfalso.
  assert (valid_language lower l0 = s_es) as Hv.
  { unfold valid_language.
    destruct (bool_decide (norm lower l0 = s_es)) eqn:B1; cbn [orb].
    - by apply bool_decide_eq_true in B1.
    - destruct (bool_decide (norm lower l0 = s_en)) eqn:B2; [|done].
      apply bool_decide_eq_true in B2. destruct Hen. by exists l0. }
  rewrite Hv in Hc. unfold choose_template, templates_get in Hc.
  rewrite (bool_decide_eq_true_2 (s_es = s_es)) in Hc by done.
  rewrite Hes in Hc. done.
Qed.

Lemma no_spanish_template_ana :
  called (BuildFailed AttributeError) = false
  ∧ succeeded (BuildFailed AttributeError) = false.
Proof.
  apply (no_spanish_template_no_send lower_ascii cfg_no_es srv_ok
           (read_row fieldnames rec_ana) 0).
  - reflexivity.
  - intros (l & Hl & Hn). vm_compute in Hl. injection Hl as <-.
    vm_compute in Hn. discriminate.
  - vm_compute. reflexivity.
Defined.

(** X9. Every message handed to [sendmail] has the fixed sender, goes to
    the contact's address lowercased and trimmed, which is not empty, and
    carries the Spanish or the English template with the first word of the
    contact's name in place of the placeholder and the image references
    rewritten. *)
Theorem sent_message_shape lower cfg server c k o m :
  process lower cfg server c k = Ok o →
  (o = Sent m ∨ ∃ e, o = SendFailed m e) →
  m_from m = s_from
  ∧ m_to m ≠ []
  ∧ (∃ e0, get_str c k_email [] = Ok e0 ∧ m_to m = norm lower e0)
  ∧ (∃ n0 t tpl,
       get_str c k_nombre [] = Ok n0 ∧ first_token n0 = Ok t
       ∧ (template_es cfg = Some tpl ∨ template_en cfg = Some tpl)
       ∧ m_html m = embed_images (replace tpl (lit "$name") t) (images cfg))
  ∧ m_inline m = inline_images (images cfg).
Proof.
  intros (n0 & t & e0 & s0 & d0 & l0 & Hn & Ht & He & _ & _ & _ & H)%process_inv Ho.
  destruct H as [[-> _]|[[-> _]|(Hne & _ & _ & H)]];
    [by destruct Ho as [|[]]..|].
  destruct H as [[-> _]|(tpl & Hc & H)]; [by destruct Ho as [|[]]|].
  assert (m = message_for cfg t (norm lower e0)
                (choose_template cfg (valid_language lower l0)).2 tpl) as ->.
  { destruct H as [(e & _ & ->)|[_ ->]]; destruct Ho as [|[]]; congruence. }
  simpl. split; [done|]. split; [done|]. split; [by exists e0|].
  split; [|done]. exists n0, t, tpl. repeat (split; [done|]). split; [|done].
  unfold choose_template, templates_get in Hc.
  repeat case_match; simpl in Hc; auto.
Qed.

Lemma sent_message_shape_ana :
  m_from (message_for cfg_abc (lit "Ana") (lit "a@x.com") s_es tpl_es) = s_from
  ∧ m_to (message_for cfg_abc (lit "Ana") (lit "a@x.com") s_es tpl_es) ≠ []
  ∧ (∃ e0, get_str (read_row fieldnames rec_ana) k_email [] = Ok e0
           ∧ m_to (message_for cfg_abc (lit "Ana") (lit "a@x.com") s_es tpl_es)
             = norm lower_ascii e0)
  ∧ (∃ n0 t tpl,
       get_str (read_row fieldnames rec_ana) k_nombre [] = Ok n0
       ∧ first_token n0 = Ok t
       ∧ (template_es cfg_abc = Some tpl ∨ template_en cfg_abc = Some tpl)
       ∧ m_html (message_for cfg_abc (lit "Ana") (lit "a@x.com") s_es tpl_es)
         = embed_images (replace tpl (lit "$name") t) (images cfg_abc))
  ∧ m_inline (message_for cfg_abc (lit "Ana") (lit "a@x.com") s_es tpl_es)
    = inline_images (images cfg_abc).
Proof.
  apply (sent_message_shape lower_ascii cfg_abc srv_ok
           (read_row fieldnames rec_ana) 0
           (Sent (message_for cfg_abc (lit "Ana") (lit "a@x.com") s_es tpl_es))).
  - vm_compute. reflexivity.
  - left. reflexivity.
Defined.

(** X10. A contact whose address, lowercased and trimmed, is empty is
    skipped: the loop makes no send attempt for it, and the rewrite writes
    it back as loaded. *)
Theorem blank_email_passed_over lower cfg server i c :
  contactos cfg !! i = Some c →
  field_is lower c k_email [] [] →
  passed_over lower cfg server i c
  ∧ ∀ k o, process lower cfg server c k = Ok o → o = Skipped.
Proof.
  intros Hi (s & Hs & Hn).
  assert (∀ k o, process lower cfg server c k = Ok o → o = Skipped) as Hsk.
  { intros k o. unfold process. rewrite Hs. unbind.
    repeat (case_match; try done).
    all: try by intros [= <-].
    all: rewrite Hn in *; rewrite (bool_decide_eq_true_2 ([] = [])) in * by done.
    all: by rewrite ?orb_true_r in *. }
  split; [|done]. apply unattempted_passed_over; [done|].
  intros k o Hp. by rewrite (Hsk _ _ Hp).
Qed.

Lemma blank_email_flor :
  passed_over lower_ascii (campaign_of [fieldnames; rec_ana; rec_noemail]) srv_ok 1
    (read_row fieldnames rec_noemail)
  ∧ ∀ k o, process lower_ascii (campaign_of [fieldnames; rec_ana; rec_noemail]) srv_ok
             (read_row fieldnames rec_noemail) k = Ok o → o = Skipped.
Proof.
  apply (blank_email_passed_over lower_ascii
           (campaign_of [fieldnames; rec_ana; rec_noemail]) srv_ok 1).
  - vm_compute. reflexivity.
  - exists (lit "  "). vm_compute. split; reflexivity.
Defined.

(** ** Content-IDs and the body *)

Example content_id_collision : content_id (lit "a.b.png") = content_id (lit "a_b.png").
Proof. reflexivity. Qed.

(** X11. A Content-ID has no dot and the length of the file name, and
    making one of a Content-ID changes nothing; two file names without
    underscore never share a Content-ID. *)
Theorem content_id_shape fn :
  (46 ∉ content_id fn)
  ∧ List.length (content_id fn) = List.length fn
  ∧ content_id (content_id fn) = content_id fn
  ∧ ∀ gn, 95 ∉ fn → 95 ∉ gn → content_id fn = content_id gn → fn = gn.
Proof.
  split; [|split; [|split]].
  - rewrite content_id_spec. intros (c & Hc & _)%list_elem_of_fmap.
    destruct (c =? 46) eqn:E; [done|]. apply N.eqb_neq in E. congruence.
  - rewrite content_id_spec. apply length_map.
  - rewrite !content_id_spec, <- list_fmap_compose. apply list_fmap_ext.
    intros _ c _. simpl. by destruct (c =? 46) eqn:E; [|rewrite E].
  - intros gn. rewrite !content_id_spec. revert gn.
    induction fn as [|c fn IH]; intros [|d gn] Hf Hg; simpl; try done.
    intros [= Hcd Hr]. apply not_elem_of_cons in Hf as [Hc Hf].
    apply not_elem_of_cons in Hg as [Hd Hg].
    f_equal; [|by apply IH].
    destruct (c =? 46) eqn:Ec, (d =? 46) eqn:Ed;
      try apply N.eqb_eq in Ec; try apply N.eqb_eq in Ed; congruence.
Qed.





(** Where [old] occurs is among the positions found by scanning. *)
Lemma occurrence_position (old s pre post : str) :
  s = pre ++ old ++ post → List.length pre ∈ positions old s.
Proof.
  intros ->. unfold positions. apply list_elem_of_filter. split.
  - rewrite drop_app_length. apply starts_with_spec. by exists post.
  - apply elem_of_seq. rewrite !length_app. lia.
Qed.

(** X13. The first name goes into the body as it is: a template with one
    placeholder yields the text before it, the first word of the name and
    the text after it, with the image references then rewritten. *)
Theorem name_inserted_verbatim nombre first pre post imgs :
  first_token nombre = Ok first →
  (∀ pre1 post1,
     pre ++ lit "$name" ++ post = pre1 ++ lit "$name" ++ post1 → pre1 = pre) →
  render nombre (Some (pre ++ lit "$name" ++ post)) imgs
  = Ok (embed_images (pre ++ first ++ post) imgs).
Proof.
  intros Hf Hone. unfold render. rewrite Hf. unbind. do 2 f_equal.
  apply (replaced_functional (lit "$name") first (pre ++ lit "$name" ++ post)).
  - by apply replace_replaced.
  - apply replaced_next.
    + intros pre1 post1 E. by rewrite (Hone _ _ E).
    + apply replaced_none. intros pre2 post2 ->.
      specialize (Hone (pre ++ lit "$name" ++ pre2) post2).
      rewrite <- !app_assoc in Hone. specialize (Hone eq_refl).
      apply (f_equal (@List.length _)) in Hone.
      rewrite !length_app in Hone. simpl in Hone. lia.
Qed.

Lemma name_inserted_ana :
  render (lit "Ana Ruiz") (Some (lit "<p>Hola " ++ lit "$name" ++ lit "</p>")) []
  = Ok (embed_images (lit "<p>Hola " ++ lit "Ana" ++ lit "</p>") []).
Proof.
  apply (name_inserted_verbatim (lit "Ana Ruiz") (lit "Ana")
           (lit "<p>Hola ") (lit "</p>") []).
  - reflexivity.
  - intros pre1 post1 E.
    pose proof (occurrence_position _ _ _ _ E) as H.
    replace (positions (lit "$name") (lit "<p>Hola " ++ lit "$name" ++ lit "</p>"))
      with [8%nat] in H by (vm_compute; reflexivity).
    apply list_elem_of_singleton in H.
    apply (f_equal (take 8)) in E. rewrite (take_app_length' pre1) in E by done.
    rewrite <- E. vm_compute. reflexivity.
Defined.

(** ** Contact lists without contacts, or without names *)

Lemma dict_reader_blank (f : csvfile) :
  (∀ r, r ∈ tail f → r = []) → dict_reader f = [].
Proof.
  destruct f as [|hdr recs]; [done|]. simpl. intros H.
  induction recs as [|r recs IH]; [done|].
  rewrite filter_cons. rewrite (H r) by by left.
  case_decide; [done|]. apply IH. intros r' Hr'. apply H. by right.
Qed.

(** X14. A contact list that is empty, or has a header and blank records
    only, ends the run at line 243: the session is not opened and the
    contact list is not written, whatever the mail server would do. *)
Theorem blank_contact_list_stops lower cfg server (f : csvfile) :
  csv_file cfg = Some f →
  (∀ r, r ∈ tail f → r = []) →
  falsy (template_es cfg) && falsy (template_en cfg) = false →
  enviar_correos lower (Some cfg) server = stop EmptyCsv.
Proof.
  intros Hf Hb Ht. unfold enviar_correos, contactos.
  by rewrite Hf, Ht, (dict_reader_blank f Hb).
Qed.

Lemma blank_contact_list_header_only :
  enviar_correos lower_ascii (Some (campaign_of [fieldnames; []; []])) srv_ok
  = stop EmptyCsv.
Proof.
  apply (blank_contact_list_stops lower_ascii (campaign_of [fieldnames; []; []])
           srv_ok [fieldnames; []; []]).
  - reflexivity.
  - intros r Hr. simpl in Hr.
    apply elem_of_cons in Hr as [->|Hr]; [done|].
    apply elem_of_cons in Hr as [->|Hr]; [done|]. by apply elem_of_nil in Hr.
  - reflexivity.
Defined.

Lemma zip_dict_notin k hdr : ∀ (r : record) d,
  k ∉ hdr → zip_dict hdr r d !! k = d !! k.
Proof.
  induction hdr as [|h hdr IH]; intros r d Hk; [done|].
  apply not_elem_of_cons in Hk as [Hh Hk].
  destruct r as [|v r]; [done|]. simpl.
  rewrite IH by done. by rewrite lookup_insert_ne.
Qed.

Lemma fill_none_notin k (ks : list str) : ∀ d : gmap str (option str),
  k ∉ ks → foldl (λ d k, <[k := None]> d) d ks !! k = d !! k.
Proof.
  induction ks as [|h ks IH]; intros d Hk; [done|].
  apply not_elem_of_cons in Hk as [Hh Hk]. simpl.
  rewrite IH by done. by rewrite lookup_insert_ne.
Qed.

(** A column that is not in the header is not in the contact. *)
Lemma read_row_notin k hdr r : k ∉ hdr → fields (read_row hdr r) !! k = None.
Proof.
  intros Hk. unfold read_row. case_match; simpl.
  - by rewrite zip_dict_notin.
  - rewrite fill_none_notin, zip_dict_notin; [done..|].
    intros Hd. apply Hk. by eapply subseteq_drop.
Qed.

(** X15. If the header of the contact list has no [nombre] column, the
    first contact already raises [IndexError] at line 268: no contact is
    processed, nothing is sent, the contact list is not written, and once
    the session is set up the run ends in the generic handler. *)
Theorem no_nombre_column_sends_nothing lower cfg server hdr (recs : csvfile) :
  csv_file cfg = Some (hdr :: recs) →
  k_nombre ∉ hdr →
  r_rows (enviar_correos lower (Some cfg) server) = []
  ∧ r_written (enviar_correos lower (Some cfg) server) = None
  ∧ (connect server = None →
     r_connected (enviar_correos lower (Some cfg) server) = true →
     r_status (enviar_correos lower (Some cfg) server) = Unexpected IndexError).
Proof.
  intros Hf Hk.
  assert (∀ c, c ∈ contactos cfg → blank_name c) as Hblank.
  { unfold contactos. rewrite Hf. simpl.
    intros c (r & -> & _)%list_elem_of_fmap. exists []. split; [|constructor].
    unfold get_str. by rewrite read_row_notin. }
  destruct (enviar_correos_shape lower (Some cfg))
    as [(s & Hs & _)|(cfg' & p & [= <-] & Hp & Hs)]; rewrite Hs; [done|].
  unfold session. destruct (connect server) as [x|] eqn:Hc; [done|].
  destruct (contactos cfg) as [|c cs] eqn:Hcs; [done|].
  simpl. rewrite process_blank_name by (apply Hblank; by left). done.
Qed.

Lemma no_nombre_column_run :
  r_rows (enviar_correos lower_ascii (Some cfg_no_nombre) srv_ok) = []
  ∧ r_written (enviar_correos lower_ascii (Some cfg_no_nombre) srv_ok) = None
  ∧ (connect srv_ok = None →
     r_connected (enviar_correos lower_ascii (Some cfg_no_nombre) srv_ok) = true →
     r_status (enviar_correos lower_ascii (Some cfg_no_nombre) srv_ok)
     = Unexpected IndexError).
Proof.
  apply (no_nombre_column_sends_nothing lower_ascii cfg_no_nombre srv_ok
           [lit "name"; k_email; k_device; k_enviado; k_language]
           [rec_ana; rec_dan]).
  - reflexivity.
  - vm_compute. intros H. repeat (apply elem_of_cons in H as [H|H]; [discriminate|]).
    by apply elem_of_nil in H.
Defined.

(** * The campaign store *)

Example list_campaigns_ok :
  list_campaigns (Some root_ok)
  = Ok [(DEFAULT_CAMPAIGN, lit "Beta"); (lit "plain", lit "plain")].
Proof. vm_compute. reflexivity. Qed.

Example run_default_campaign :
  r_status <$> (match enviar_correos_from lower_ascii (Some root_ok) [] srv_ok with
                | Ok r => Some r | Raise _ => None end)
  = Some (Updated 2 2).
Proof. vm_compute. reflexivity. Qed.

Lemma lookup_entry_elem id es e :
  NoDup es.*1 → (id, e) ∈ es → lookup_entry id es = Some e.
Proof.
  induction es as [|[n e0] es IH]; intros Hnd Hin; [by apply elem_of_nil in Hin|].
  simpl in *. apply NoDup_cons in Hnd as [Hn Hnd].
  apply elem_of_cons in Hin as [[= -> ->]|Hin].
  - by rewrite bool_decide_eq_true_2.
  - rewrite bool_decide_eq_false_2; [by apply IH|].
    intros ->. apply Hn. apply list_elem_of_fmap. by exists (id, e).
Qed.

Lemma list_entries_elem es : ∀ l id name,
  list_entries es = Ok l → (id, name) ∈ l →
  ∃ f config, (id, Sub f) ∈ es ∧ config_file f = Some (Ok config)
              ∧ name = default id (cj_name config).
Proof.
  induction es as [|[n e] es IH]; intros l id name; simpl.
  - intros [= <-] H. by apply elem_of_nil in H.
  - assert (∀ l, list_entries es = Ok l → (id, name) ∈ l →
                 ∃ f config, (id, Sub f) ∈ (n, e) :: es
                             ∧ config_file f = Some (Ok config)
                             ∧ name = default id (cj_name config)) as IH'.
    { intros l' Hl' Hin. destruct (IH _ _ _ Hl' Hin) as (f & config & ? & ? & ?).
      exists f, config. split; [by right|done]. }
    destruct e as [|f]; [apply IH'|].
    destruct (config_file f) as [[config|x]|] eqn:Hc; [| done |apply IH'].
    unbind. destruct (list_entries es) as [rest|]; [|done].
    intros [= <-] [[= -> ->]|Hin]%elem_of_cons.
    + exists f, config. split; [by left|done].
    + by apply (IH' rest).
Qed.

(** X16. Every campaign that [list_campaigns] lists can be loaded: for an
    identifier it lists, [load_campaign_config] gives the folder of that
    name and its configuration, and the name listed is the [name] of that
    configuration, or the identifier when it has none. *)
Theorem listed_campaign_loads lower es l id name :
  NoDup es.*1 →
  list_campaigns (Some es) = Ok l →
  (id, name) ∈ l →
  ∃ f config,
    load_campaign_config lower (Some es) id = Ok (Some (f, config))
    ∧ (id, Sub f) ∈ es
    ∧ name = default id (cj_name config).
Proof.
  intros Hnd Hl Hin.
  destruct (list_entries_elem _ _ _ _ Hl Hin) as (f & config & Hf & Hc & Hn).
  exists f, config. split; [|done].
  unfold load_campaign_config. simpl.
  by rewrite (lookup_entry_elem _ _ _ Hnd Hf), Hc.
Qed.

Lemma listed_campaign_loads_plain :
  ∃ f config,
    load_campaign_config lower_ascii (Some root_ok) (lit "plain") = Ok (Some (f, config))
    ∧ (lit "plain", Sub f) ∈ root_ok
    ∧ lit "plain" = default (lit "plain") (cj_name config).
Proof.
  apply (listed_campaign_loads lower_ascii root_ok
           [(DEFAULT_CAMPAIGN, lit "Beta"); (lit "plain", lit "plain")]).
  - vm_compute. repeat constructor; intros H;
      repeat (apply elem_of_cons in H as [H|H]; [discriminate|]);
      by apply elem_of_nil in H.
  - vm_compute. reflexivity.
  - right. left.
Defined.

Lemma ends_with_spec suffix s :
  ends_with suffix s = true ↔ ∃ pre, s = pre ++ suffix.
Proof.
  unfold ends_with. rewrite starts_with_spec. split.
  - intros [post E]. exists (rev post).
    apply (f_equal (@rev _)) in E. by rewrite rev_involutive, rev_app_distr, rev_involutive in E.
  - intros [pre ->]. exists (rev pre). by rewrite rev_app_distr.
Qed.







(** X19. When [config.json] names a template for neither language, both
    are read from [template_es.html]: whatever the language of a contact,
    the body sent is that file with the first word of the name put in. *)
Theorem unnamed_templates_are_spanish_file lower f config server c k m :
  default ∅ (cj_templates config) !! s_es = None →
  default ∅ (cj_templates config) !! s_en = None →
  process lower (campaign_of_folder lower f config) server c k = Ok (Sent m) →
  template_en (campaign_of_folder lower f config)
  = template_es (campaign_of_folder lower f config)
  ∧ ∃ tpl n0 t,
      text_files f !! lit "template_es.html" = Some tpl
      ∧ get_str c k_nombre [] = Ok n0 ∧ first_token n0 = Ok t
      ∧ m_html m = embed_images (replace tpl (lit "$name") t)
                                (get_images_to_embed lower f).
Proof.
  intros Hes Hen Hp.
  assert (template_es (campaign_of_folder lower f config)
          = text_files f !! lit "template_es.html") as Hes'.
  { simpl. unfold load_html_template. by rewrite Hes. }
  assert (template_en (campaign_of_folder lower f config)
          = text_files f !! lit "template_es.html") as Hen'.
  { simpl. unfold load_html_template. by rewrite Hen. }
  split; [congruence|].
  apply process_inv in Hp as (n0 & t & e0 & s0 & d0 & l0 & Hn & Ht & _ & _ & _ & _ & H).
  destruct H as [[? _]|[[? _]|(_ & _ & _ & H)]]; [done..|].
  destruct H as [[? _]|(tpl & Hc & [(? & _ & ?)|[_ [= ->]]])]; [done..|].
  exists tpl, n0, t. repeat split; try done.
  unfold choose_template, templates_get in Hc.
  rewrite Hen', Hes' in Hc. by repeat case_match.
Qed.

Lemma unnamed_templates_dan :
  template_en (campaign_of_folder lower_ascii
                 (Folder (config_file folder_plain) [lit "c.csv"] (text_files folder_plain)
                         (λ _, [fieldnames; rec_dan]) None)
                 (ConfigJson None None None))
  = template_es (campaign_of_folder lower_ascii
                   (Folder (config_file folder_plain) [lit "c.csv"] (text_files folder_plain)
                           (λ _, [fieldnames; rec_dan]) None)
                   (ConfigJson None None None))
  ∧ ∃ tpl n0 t,
      text_files (Folder (config_file folder_plain) [lit "c.csv"]
                         (text_files folder_plain)
                         (λ _, [fieldnames; rec_dan]) None)
        !! lit "template_es.html" = Some tpl
      ∧ get_str (read_row fieldnames rec_dan) k_nombre [] = Ok n0
      ∧ first_token n0 = Ok t
      ∧ m_html (message_for
                  (campaign_of_folder lower_ascii
                     (Folder (config_file folder_plain) [lit "c.csv"]
                             (text_files folder_plain)
                             (λ _, [fieldnames; rec_dan]) None)
                     (ConfigJson None None None))
                  (lit "Dan") (lit "d@x.com") s_en tpl_es)
        = embed_images (replace tpl (lit "$name") t)
            (get_images_to_embed lower_ascii
               (Folder (config_file folder_plain) [lit "c.csv"]
                       (text_files folder_plain)
                       (λ _, [fieldnames; rec_dan]) None)).
Proof.
  apply (unnamed_templates_are_spanish_file lower_ascii _ _ srv_ok
           (read_row fieldnames rec_dan) 0).
  - reflexivity.
  - reflexivity.
  - vm_compute. reflexivity.
Defined.

Lemma find_csv_none lower f :
  Forall (λ n, ends_with (lit ".csv") (lower n) = false) (listing f) →
  find_csv lower f = None.
Proof.
  unfold find_csv. induction 1 as [|n ns Hn _ IH]; [done|].
  rewrite filter_cons. case_decide; [congruence|done].
Qed.

Lemma find_csv_first lower f pre n post :
  listing f = pre ++ n :: post →
  Forall (λ n, ends_with (lit ".csv") (lower n) = false) pre →
  ends_with (lit ".csv") (lower n) = true →
  find_csv lower f = Some n.
Proof.
  unfold find_csv. intros -> Hpre Hn.
  induction Hpre as [|p ps Hp _ IH]; simpl; rewrite filter_cons.
  - by rewrite decide_True.
  - rewrite decide_False by congruence. done.
Qed.

(** X20. The contact list of a campaign is the first entry of its folder,
    in listing order, whose lowercased name ends in [.csv]; with no such
    entry the run returns at line 208, before any session. *)
Theorem contact_list_is_first_csv lower f config server :
  (Forall (λ n, ends_with (lit ".csv") (lower n) = false) (listing f) →
   enviar_correos lower (Some (campaign_of_folder lower f config)) server
   = stop NoCsv)
  ∧ ∀ pre n post,
      listing f = pre ++ n :: post →
      Forall (λ n, ends_with (lit ".csv") (lower n) = false) pre →
      ends_with (lit ".csv") (lower n) = true →
      csv_file (campaign_of_folder lower f config) = Some (csv_records f n).
Proof.
  split.
  - intros H. unfold enviar_correos. simpl. by rewrite (find_csv_none _ _ H).
  - intros pre n post Hl Hpre Hn. simpl.
    by rewrite (find_csv_first _ _ _ _ _ Hl Hpre Hn).
Qed.

Example contact_list_beta :
  find_csv lower_ascii folder_beta = Some (lit "Contacts.CSV")
  ∧ map filename (get_images_to_embed lower_ascii folder_beta) = [lit "logo.PNG"].
Proof. vm_compute. done. Qed.

(** * Runs that do not save *)

(** With a session on which every send succeeds, the loop body sends the
    message another session was given, and otherwise does what it did
    there. *)
Lemma process_resend lower cfg server server' c k k' o :
  (∀ j, sendmail server' j = None) →
  process lower cfg server c k = Ok o →
  process lower cfg server' c k'
  = Ok match o with
       | Sent m | SendFailed m _ => Sent m
       | _ => o
       end.
Proof.
  intros Hs. unfold process. unbind.
  repeat (case_match; try done); intros; simplify_eq; try done.
  all: by rewrite Hs in *.
Qed.

Lemma send_loop_resend lower cfg server server' cs : ∀ k k' rows e i c m,
  (∀ j, sendmail server' j = None) →
  send_loop lower cfg server cs k = (rows, e) →
  rows !! i = Some (c, Sent m) →
  (send_loop lower cfg server' cs k').1 !! i = Some (c, Sent m).
Proof.
  induction cs as [|c0 cs IH]; intros k k' rows e i c m Hs; simpl.
  - by intros [= <- <-].
  - destruct (process lower cfg server c0 k) as [o|x] eqn:Hp;
      [|by intros [= <- <-]].
    rewrite (process_resend _ _ _ server' _ _ k' _ Hs Hp).
    destruct (send_loop lower cfg server cs _) as [rows1 e1] eqn:Hl.
    intros [= <- <-] Hi.
    destruct (send_loop lower cfg server' cs _) as [rows2 e2] eqn:Hl2.
    destruct i as [|i]; simpl in *.
    + injection Hi as <- ->. done.
    + specialize (IH _ (if called match o with
                                   | Sent m | SendFailed m _ => Sent m
                                   | _ => o
                                   end then S k' else k') _ _ _ _ _ Hs Hl Hi).
      by rewrite Hl2 in IH.
Qed.

(** X21. A send that the run does not get to save is repeated: when a run
    ends without writing the contact list, a later run of the same
    campaign on a session whose sends succeed sends the same message again
    to every contact the first run sent to. *)
Theorem unsaved_send_is_repeated lower cfg server server' i c m :
  r_written (enviar_correos lower (Some cfg) server) = None →
  r_rows (enviar_correos lower (Some cfg) server) !! i = Some (c, Sent m) →
  connect server' = None →
  (∀ j, sendmail server' j = None) →
  r_rows (enviar_correos lower (Some cfg) server') !! i = Some (c, Sent m).
Proof.
  intros _ Hro Hc' Hs.
  destruct (enviar_correos_shape lower (Some cfg))
    as [(s & Hst & _)|(cfg' & p & [= <-] & _ & Hst)]; rewrite Hst in *; [done|].
  apply session_rows in Hro as (rows & e & Hl & Hro).
  rewrite session_loop_rows by done.
  by eapply send_loop_resend.
Qed.

Lemma unsaved_send_ana :
  r_rows (enviar_correos lower_ascii (Some cfg_blank) srv_ok) !! 0%nat
  = Some (mark_sent (read_row fieldnames rec_ana),
          Sent (message_for cfg_blank (lit "Ana") (lit "a@x.com") s_es tpl_es)).
Proof.
  apply (unsaved_send_is_repeated lower_ascii cfg_blank srv_ok srv_ok 0).
  - vm_compute. reflexivity.
  - vm_compute. reflexivity.
  - reflexivity.
  - reflexivity.
Defined.

(** * When nothing is left to send *)

Lemma enviar_correos_updated_counts lower cfg server n p :
  r_status (enviar_correos lower (Some cfg) server) = Updated n p →
  count_pending lower (contactos cfg) = Ok p
  ∧ n = enviados (r_rows (enviar_correos lower (Some cfg) server))
  ∧ falsy (template_es cfg) && falsy (template_en cfg) = false
  ∧ contactos cfg ≠ [].
Proof.
  unfold enviar_correos.
  destruct (csv_file cfg) as [f|] eqn:Hf; [|done].
  destruct (_ && _) eqn:Ht; [done|].
  destruct (contactos cfg) as [|c0 cs0] eqn:Hcs; [done|].
  destruct (count_pending _ _) as [[|q]|x] eqn:Hq; [done| |done].
  unfold session.
  destruct (connect server) as [x|]; [by intros ?%handler_not_updated|].
  destruct (send_loop _ _ _ _ _) as [rows [x|]] eqn:Hl;
    [by intros ?%handler_not_updated|].
  destruct (quit server) as [x|]; [by intros ?%handler_not_updated|].
  destruct (writerows _) as [w [x|]] eqn:Hw; simpl;
    [by intros ?%handler_not_updated|].
  by intros [= <- <-].
Qed.

(** When as many contacts were sent to as were pending, every pending
    contact was sent to. *)
Lemma send_loop_all_sent lower cfg server cs : ∀ k rows e p i c c' o,
  send_loop lower cfg server cs k = (rows, e) →
  count_pending lower cs = Ok p →
  enviados rows = p →
  cs !! i = Some c → rows !! i = Some (c', o) →
  is_pending lower c = Ok true → succeeded o = true.
Proof.
  induction cs as [|c0 cs IH]; intros k rows e p i c c' o; [done|]. simpl.
  destruct (process lower cfg server c0 k) as [o0|x] eqn:Hp;
    [|by intros [= <- <-]].
  destruct (send_loop lower cfg server cs _) as [rows1 e1] eqn:Hl.
  intros [= <- <-]. unbind.
  destruct (is_pending lower c0) as [b|] eqn:Hb; [|done].
  destruct (count_pending lower cs) as [q|] eqn:Hq; [|done].
  intros [= <-]. unfold enviados. rewrite filter_cons. simpl.
  pose proof (send_loop_enviados _ _ _ _ _ _ _ _ Hl Hq) as Hle.
  unfold enviados in Hle.
  destruct (succeeded o0) eqn:Ho.
  - rewrite (process_sent_pending _ _ _ _ _ _ Hp Ho) in Hb. injection Hb as <-.
    rewrite decide_True by done. simpl. intros [= Hn].
    destruct i as [|i]; simpl.
    + by intros _ [= <- <-].
    + intros Hi Hro. by eapply (IH _ _ _ _ _ _ _ _ Hl eq_refl).
  - rewrite decide_False by done. intros Hn.
    destruct b; [lia|].
    destruct i as [|i]; simpl.
    + intros [= <-] _. congruence.
    + intros Hi Hro. by eapply (IH _ _ _ _ _ _ _ _ Hl eq_refl).
Qed.

Lemma is_pending_false lower c :
  is_pending lower c = Ok false → field_is lower c k_enviado s_no s_si.
Proof.
  unfold is_pending, field_is. unbind.
  destruct (get_str c k_enviado s_no) as [s|]; [|done].
  intros [= H]. exists s. split; [done|].
  apply negb_false_iff in H. by apply bool_decide_eq_true in H.
Qed.

Lemma count_pending_is_pending lower cs p i c :
  count_pending lower cs = Ok p → cs !! i = Some c →
  ∃ b, is_pending lower c = Ok b.
Proof.
  revert p i. induction cs as [|c0 cs IH]; intros p i; [done|]. simpl. unbind.
  destruct (is_pending lower c0) as [b|] eqn:Hb; [|done].
  destruct (count_pending lower cs) as [q|] eqn:Hq; [|done].
  intros _. destruct i as [|i]; simpl.
  - intros [= <-]. by exists b.
  - by apply (IH q).
Qed.

(** X22. Once a completed run has sent to every contact that was pending,
    the next run over the contact list it wrote finds nothing pending and
    returns at line 254 without opening a session, provided lowercasing
    leaves [si] and [no] as they are. *)
Theorem nothing_left_after_full_run lower cfg server server2 p f :
  lower s_si = s_si →
  lower s_no = s_no →
  r_status (enviar_correos lower (Some cfg) server) = Updated p p →
  r_written (enviar_correos lower (Some cfg) server) = Some f →
  enviar_correos lower (Some (with_csv cfg f)) server2 = stop AllSent.
Proof.
  intros Hsi Hno Hst Hf.
  destruct (enviar_correos_updated_counts _ _ _ _ _ Hst) as (Hq & Hn & Ht & Hne).
  destruct (enviar_correos_updated _ _ _ _ _ Hst) as (rows & w & Hl & Hw & Hf' & Hr).
  rewrite Hf' in Hf. injection Hf as <-. rewrite Hr in Hn.
  pose proof (writerows_layout _ _ _ Hw) as Hlay.
  pose proof (writerows_complete _ _ Hw) as Hlenw. rewrite length_map in Hlenw.
  pose proof (send_loop_complete _ _ _ _ _ _ Hl) as Hlen.
  assert (contactos (with_csv cfg (fieldnames :: w)) = map (read_row fieldnames) w)
    as Hcs2.
  { unfold contactos, with_csv. cbn [csv_file]. by apply dict_reader_layout. }
  assert (∀ c2, c2 ∈ contactos (with_csv cfg (fieldnames :: w)) →
                field_is lower c2 k_enviado s_no s_si) as Hall.
  { rewrite Hcs2. intros c2 (rec & -> & Hrec)%list_elem_of_fmap.
    apply list_elem_of_lookup in Hrec as [i Hrec].
    destruct (writerows_lookup _ _ _ _ _ Hw Hrec) as (d & Hd & Hdl).
    rewrite list_lookup_fmap in Hd.
    destruct (rows !! i) as [[c' o]|] eqn:Hro; [|done].
    simpl in Hd. injection Hd as <-.
    destruct (send_loop_lookup _ _ _ _ _ _ _ _ _ _ Hl Hro) as (c & k' & Hc & _ & Hc').
    pose proof (dict_to_list_length _ _ Hdl) as H5.
    destruct (succeeded o) eqn:Ho.
    - subst c'. exists s_si. split; [|by apply norm_si].
      apply read_row_enviado; [done|]. by eapply dict_to_list_mark_sent.
    - subst c'. destruct (count_pending_is_pending _ _ _ _ _ Hq Hc) as [b Hb].
      destruct b.
      { rewrite (send_loop_all_sent _ _ _ _ _ _ _ _ _ _ _ _ Hl Hq (eq_sym Hn) Hc Hro Hb)
          in Ho. done. }
      apply is_pending_false in Hb as (s0 & Hs0 & Hn0).
      exists s0. split; [|done].
      apply read_row_enviado; [done|].
      rewrite (dict_to_list_enviado _ _ Hdl). f_equal.
      unfold get_str in Hs0.
      destruct (fields c !! k_enviado) as [[v|]|] eqn:Hv; simpl in *; [congruence|done|].
      injection Hs0 as <-. exfalso. revert Hn0. unfold norm. rewrite Hno.
      vm_compute. discriminate. }
  unfold enviar_correos. cbn [with_csv csv_file template_es template_en].
  rewrite Ht.
  destruct (contactos (with_csv cfg (fieldnames :: w))) as [|c2 cs2] eqn:Hc2.
  { exfalso. symmetry in Hcs2.
    apply map_eq_nil in Hcs2. subst w.
    apply Hne, nil_length_inv. simpl in Hlenw. congruence. }
  by rewrite (count_pending_all_sent _ _ Hall).
Qed.

Lemma nothing_left_two :
  enviar_correos lower_ascii
    (Some (with_csv cfg_two
             [fieldnames;
              [lit "Ana Ruiz"; lit "a@x.com"; lit "ios"; lit "si"; lit "es"];
              [lit "Dan Gil"; lit "d@x.com"; lit "ios"; lit "si"; lit "en"]]))
    srv_lost
  = stop AllSent.
Proof.
  apply (nothing_left_after_full_run lower_ascii cfg_two srv_ok srv_lost 2).
  - reflexivity.
  - reflexivity.
  - vm_compute. reflexivity.
  - vm_compute. reflexivity.
Defined.

(** * Columns in another order *)

Lemma wrong_fields_false d :
  wrong_fields d = false →
  rest d = None ∧ ∀ k, k ∉ fieldnames → fields d !! k = None.
Proof.
  unfold wrong_fields. destruct (rest d); [done|].
  intros H%negb_false_iff%bool_decide_eq_true. split; [done|].
  intros k Hk. apply not_elem_of_dom. intros Hd. apply Hk.
  apply H in Hd. by apply elem_of_list_to_set in Hd.
Qed.

(** X23. A contact that has a string under each of the five field names
    and no other key is read back from the record the rewrite writes for
    it exactly as it was, whatever the order of the columns it was loaded
    from. *)
Theorem written_row_reads_back c rec :
  dict_to_list c = Ok rec →
  (∀ k, k ∈ fieldnames → ∃ v, fields c !! k = Some (Some v)) →
  read_row fieldnames rec = c.
Proof.
  intros Hd Hall.
  destruct (wrong_fields_false _ (dict_to_list_ok _ _ Hd)) as [Hrest Hout].
  destruct (Hall k_nombre) as [v1 H1]; [unfold fieldnames; by repeat constructor|].
  destruct (Hall k_email) as [v2 H2]; [unfold fieldnames; by repeat constructor|].
  destruct (Hall k_device) as [v3 H3]; [unfold fieldnames; by repeat constructor|].
  destruct (Hall k_enviado) as [v4 H4]; [unfold fieldnames; by repeat constructor|].
  destruct (Hall k_language) as [v5 H5]; [unfold fieldnames; by repeat constructor|].
  unfold dict_to_list in Hd. destruct (wrong_fields c); [done|].
  injection Hd as <-. unfold fieldnames. cbn [map].
  rewrite H1, H2, H3, H4, H5. cbn [cell default].
  destruct c as [m r]. simpl in *. subst r.
  unfold read_row. cbn. f_equal.
  apply map_eq. intros k.
  destruct (decide (k = k_language)) as [->|N5]; [by rewrite lookup_insert_eq|].
  rewrite lookup_insert_ne by done.
  destruct (decide (k = k_enviado)) as [->|N4]; [by rewrite lookup_insert_eq|].
  rewrite lookup_insert_ne by done.
  destruct (decide (k = k_device)) as [->|N3]; [by rewrite lookup_insert_eq|].
  rewrite lookup_insert_ne by done.
  destruct (decide (k = k_email)) as [->|N2]; [by rewrite lookup_insert_eq|].
  rewrite lookup_insert_ne by done.
  destruct (decide (k = k_nombre)) as [->|N1]; [by rewrite lookup_insert_eq|].
  rewrite lookup_insert_ne by done.
  rewrite lookup_empty. symmetry. apply Hout. unfold fieldnames. intros Hk.
  repeat (apply elem_of_cons in Hk as [?|Hk]; [done|]).
  by apply elem_of_nil in Hk.
Qed.

Lemma written_row_reads_back_swapped :
  read_row fieldnames [lit "Ana"; lit "a@x.com"; lit "ios"; lit "no"; lit "es"]
  = read_row [k_email; k_nombre; k_language; k_enviado; k_device]
      [lit "a@x.com"; lit "Ana"; lit "es"; lit "no"; lit "ios"].
Proof.
  apply (written_row_reads_back
           (read_row [k_email; k_nombre; k_language; k_enviado; k_device]
              [lit "a@x.com"; lit "Ana"; lit "es"; lit "no"; lit "ios"])).
  - vm_compute. reflexivity.
  - intros k Hk. unfold fieldnames in Hk.
    repeat (apply elem_of_cons in Hk as [->|Hk]; [eexists; vm_compute; reflexivity|]).
    by apply elem_of_nil in Hk.
Defined.
